(** * builtrix-test: the energy dashboard back end (src/index.js)

    A shallow embedding of the CSV ingestion (loadCSVData) and of the four
    read-only HTTP endpoints of src/index.js, with the SQL statements the
    handlers send to the store written out as list programs.

    What is modelled how:
    - JS strings are [string]s of 8-bit code units (the Latin-1 range);
      [undefined] is [None]; a row object delivered by the CSV parser or built
      by the loader is a [gmap string string].
    - A REAL column holds [option Q]: [None] is NULL, which is also how the
      store keeps a NaN; numbers are exact rationals, the rounding of IEEE
      doubles is not modelled.  A nullable TEXT column holds [option string].
    - The metadata relation is the list of its rows in rowid order; the two
      relations with [id INTEGER PRIMARY KEY AUTOINCREMENT] carry the
      largest id ever handed out, which DELETE does not reset.
    - Statements run one after the other in the order the program issues
      them; the interleaving of the three file streams is not modelled (the
      three relations do not depend on one another).
    - Route and query parameters are strings; a query parameter that is
      not given is [undefined].
    - The builtins the program calls but does not define, the number parser
      [parseFloat] of the language and the date function [strftime] of the
      store, are parameters of the development. *)

From Stdlib Require Import ZArith QArith Ascii String List Permutation Lia.
From stdpp Require Import base option list sorting gmap strings.

Open Scope string_scope.

(** [length] is the length of a list throughout. *)
Abbreviation length := List.length.

(** ** Language builtins *)

Module JS.

(** A string is truthy when it is not empty; [undefined] is falsy. *)
Definition truthy (s : string) : bool :=
  match s with EmptyString => false | String _ _ => true end.

Definition truthy_val (v : option string) : bool :=
  match v with Some s => truthy s | None => false end.

(** [a || b] on a possibly undefined string and a string. *)
Definition or_else (v : option string) (d : string) : string :=
  match v with
  | Some s => if truthy s then s else d
  | None => d
  end.

(** [`${v}`]: an undefined value prints as the text undefined. *)
Definition template (v : option string) : string :=
  match v with Some s => s | None => "undefined" end.

(** White space of the language among the 8-bit code units: TAB, LF, VT,
    FF, CR, SP and NBSP. *)
Definition is_space (c : ascii) : bool :=
  let n := N_of_ascii c in
  ((9 <=? n) && (n <=? 13) || (n =? 32) || (n =? 160))%N.

Fixpoint drop_spaces (l : list ascii) : list ascii :=
  match l with
  | [] => []
  | c :: l' => if is_space c then drop_spaces l' else l
  end.

(** [String.prototype.trim]. *)
Definition trim (s : string) : string :=
  string_of_list_ascii
    (rev (drop_spaces (rev (drop_spaces (list_ascii_of_string s))))).

(** [obj[key] = v] on a plain object: the key [__proto__] is an accessor
    that ignores strings, every other key becomes an own property. *)
Definition set_prop (key v : string) (obj : gmap string string)
  : gmap string string :=
  if bool_decide (key = "__proto__") then obj else <[key := v]> obj.

End JS.

(** ** Store builtins: NULL-aware comparison, LIKE, SUM, GROUP BY, ORDER BY *)

Module SQL.

(** [a = b] is true: both sides are not NULL and equal byte for byte. *)
Definition text_eq (a b : option string) : bool :=
  match a, b with
  | Some x, Some y => bool_decide (x = y)
  | _, _ => false
  end.

(** Two grouping keys fall in one group: NULLs group together, numbers by
    value. *)
Definition same_text (a b : option string) : bool := bool_decide (a = b).

Definition same_real (a b : option Q) : bool :=
  match a, b with
  | Some x, Some y => Qeq_bool x y
  | None, None => true
  | _, _ => false
  end.

(** ASCII case folding, the only one LIKE knows. *)
Definition lower (c : ascii) : ascii :=
  let n := N_of_ascii c in
  if ((65 <=? n) && (n <=? 90))%N then ascii_of_N (n + 32) else c.

Definition same_nocase (c d : ascii) : bool :=
  bool_decide (lower c = lower d).

(** [s LIKE p] without ESCAPE: [%] is any run of characters, [_] is any
    one character, everything else matches itself up to ASCII case. *)
Fixpoint like_chars (p s : list ascii) : bool :=
  match p with
  | [] => match s with [] => true | _ => false end
  | c :: p' =>
      if bool_decide (c = "%"%char) then
        (fix skip (t : list ascii) : bool :=
           like_chars p' t
           || match t with [] => false | _ :: t' => skip t' end) s
      else
        match s with
        | [] => false
        | d :: s' =>
            (bool_decide (c = "_"%char) || same_nocase c d)
            && like_chars p' s'
        end
  end.

Definition like (pattern s : string) : bool :=
  like_chars (list_ascii_of_string pattern) (list_ascii_of_string s).

(** [x LIKE ?] is true: NULL on either side is not. *)
Definition like_val (x pattern : option string) : bool :=
  match x, pattern with
  | Some s, Some p => like p s
  | _, _ => false
  end.

(** [SUM(x)]: NULL inputs are skipped; NULL when nothing is left. *)
Definition total (qs : list Q) : Q := foldr Qplus 0%Q qs.

Definition sum (vs : list (option Q)) : option Q :=
  match omap id vs with
  | [] => None
  | qs => Some (total qs)
  end.

Definition coalesce (v : option Q) (d : Q) : Q :=
  match v with Some q => q | None => d end.

(** [GROUP BY]: one group per distinct key, in the order in which the
    keys first occur; every group keeps its rows in scan order. *)
Fixpoint group_keys {K} (same : K → K → bool) (ks : list K) : list K :=
  match ks with
  | [] => []
  | k :: ks' => k :: filter (λ k', negb (same k k')) (group_keys same ks')
  end.

Definition group_by {A K} (same : K → K → bool) (key : A → K) (l : list A)
  : list (K * list A) :=
  (λ k, (k, filter (λ x, same k (key x)) l))
    <$> group_keys same (key <$> l).

(** [ORDER BY]: a stable insertion sort by a "comes no later" test. *)
Fixpoint insert_by {A} (le : A → A → bool) (x : A) (l : list A) : list A :=
  match l with
  | [] => [x]
  | y :: l' => if le x y then x :: l else y :: insert_by le x l'
  end.

Definition order_by {A} (le : A → A → bool) (l : list A) : list A :=
  foldr (insert_by le) [] l.

(** Ascending text order: NULL sorts first, text by code units. *)
Definition text_le (a b : option string) : bool :=
  match a, b with
  | None, _ => true
  | Some _, None => false
  | Some x, Some y => String.leb x y
  end.

(** Ascending number order with NULL first; DESC flips the arguments. *)
Definition real_le (a b : option Q) : bool :=
  match a, b with
  | None, _ => true
  | Some _, None => false
  | Some x, Some y => Qle_bool x y
  end.

(** [LIMIT n]. *)
Definition limit {A} (n : nat) (l : list A) : list A := take n l.

End SQL.


(** ** The schema (initializeDatabase) *)

(** [metadata]: [cpe TEXT PRIMARY KEY], three REAL and two TEXT columns.  The
    loader only ever binds a string to [cpe], so the column is a [string]. *)
Module Metadata.
Record row := {
  cpe : string;
  lat : option Q;
  lon : option Q;
  totalarea : option Q;
  name : option string;
  fulladdress : option string
}.
End Metadata.

(** [smart_meter_data]: the surrogate [id], then [cpe], [timestamp] and
    [active_energy]. *)
Module SmartMeter.
Record row := {
  id : Z;
  cpe : string;
  timestamp : option string;
  active_energy : option Q
}.

(** The row with its surrogate id blanked out: what the source file
    determines. *)
Definition content (r : row) : row :=
  {| id := 0; cpe := cpe r; timestamp := timestamp r;
     active_energy := active_energy r |}.
End SmartMeter.

(** [energy_breakdown]: the surrogate [id], [timestamp] and the fourteen REAL
    components, in column order. *)
Module Breakdown.
Record row := {
  id : Z;
  timestamp : option string;
  renewable_biomass : option Q;
  renewable_hydro : option Q;
  renewable_solar : option Q;
  renewable_wind : option Q;
  renewable_geothermal : option Q;
  renewable_otherrenewable : option Q;
  renewable : option Q;
  nonrenewable_coal : option Q;
  nonrenewable_gas : option Q;
  nonrenewable_nuclear : option Q;
  nonrenewable_oil : option Q;
  nonrenewable : option Q;
  hydropumpedstorage : option Q;
  unknown : option Q
}.

(** The row with its surrogate id blanked out: what the source file
    determines. *)
Definition content (r : row) : row :=
  {| id := 0;
     timestamp := timestamp r;
     renewable_biomass := renewable_biomass r;
     renewable_hydro := renewable_hydro r;
     renewable_solar := renewable_solar r;
     renewable_wind := renewable_wind r;
     renewable_geothermal := renewable_geothermal r;
     renewable_otherrenewable := renewable_otherrenewable r;
     renewable := renewable r;
     nonrenewable_coal := nonrenewable_coal r;
     nonrenewable_gas := nonrenewable_gas r;
     nonrenewable_nuclear := nonrenewable_nuclear r;
     nonrenewable_oil := nonrenewable_oil r;
     nonrenewable := nonrenewable r;
     hydropumpedstorage := hydropumpedstorage r;
     unknown := unknown r |}.
End Breakdown.

(** The database file: the three relations and, for the two AUTOINCREMENT
    relations, the largest id handed out so far. *)
Record store := {
  metadata : list Metadata.row;
  smart_meter_data : list SmartMeter.row;
  smart_meter_data_seq : Z;
  energy_breakdown : list Breakdown.row;
  energy_breakdown_seq : Z
}.

(** The state initializeDatabase leaves on a fresh file. *)
Definition empty_store : store :=
  {| metadata := []; smart_meter_data := []; smart_meter_data_seq := 0;
     energy_breakdown := []; energy_breakdown_seq := 0 |}.

(** The primary key of [metadata]: no two rows share a [cpe]. *)
Definition metadata_pk (s : store) : Prop :=
  NoDup (Metadata.cpe <$> metadata s).

(** ** Statements of the loader *)

(** [DELETE FROM t]: the rows go, the id counter stays. *)
Definition delete_smart_meter_data (s : store) : store :=
  {| metadata := metadata s;
     smart_meter_data := [];
     smart_meter_data_seq := smart_meter_data_seq s;
     energy_breakdown := energy_breakdown s;
     energy_breakdown_seq := energy_breakdown_seq s |}.

Definition delete_energy_breakdown (s : store) : store :=
  {| metadata := metadata s;
     smart_meter_data := smart_meter_data s;
     smart_meter_data_seq := smart_meter_data_seq s;
     energy_breakdown := [];
     energy_breakdown_seq := energy_breakdown_seq s |}.

Definition delete_metadata (s : store) : store :=
  {| metadata := [];
     smart_meter_data := smart_meter_data s;
     smart_meter_data_seq := smart_meter_data_seq s;
     energy_breakdown := energy_breakdown s;
     energy_breakdown_seq := energy_breakdown_seq s |}.

(** [INSERT OR REPLACE INTO metadata]: a row with the same key is deleted,
    the new row is appended. *)
Definition insert_or_replace (r : Metadata.row) (t : list Metadata.row)
  : list Metadata.row :=
  filter (λ m, Metadata.cpe m ≠ Metadata.cpe r) t ++ [r].

Definition set_metadata (t : list Metadata.row) (s : store) : store :=
  {| metadata := t;
     smart_meter_data := smart_meter_data s;
     smart_meter_data_seq := smart_meter_data_seq s;
     energy_breakdown := energy_breakdown s;
     energy_breakdown_seq := energy_breakdown_seq s |}.

(** The id AUTOINCREMENT gives the next row: one more than the largest id
    ever used. *)
Definition next_id (seq : Z) (ids : list Z) : Z :=
  (Z.max seq (foldr Z.max 0 ids) + 1)%Z.

(** [INSERT INTO smart_meter_data (cpe, timestamp, active_energy)]. *)
Definition insert_smart_meter (c : string) (ts : option string)
  (e : option Q) (s : store) : store :=
  let i := next_id (smart_meter_data_seq s)
             (SmartMeter.id <$> smart_meter_data s) in
  {| metadata := metadata s;
     smart_meter_data :=
       smart_meter_data s
       ++ [{| SmartMeter.id := i; SmartMeter.cpe := c;
              SmartMeter.timestamp := ts; SmartMeter.active_energy := e |}];
     smart_meter_data_seq := i;
     energy_breakdown := energy_breakdown s;
     energy_breakdown_seq := energy_breakdown_seq s |}.

(** [INSERT INTO energy_breakdown (timestamp, ...)]: [r] carries the fifteen
    bound values, its id is assigned here. *)
Definition insert_breakdown (r : Breakdown.row) (s : store) : store :=
  let i := next_id (energy_breakdown_seq s)
             (Breakdown.id <$> energy_breakdown s) in
  {| metadata := metadata s;
     smart_meter_data := smart_meter_data s;
     smart_meter_data_seq := smart_meter_data_seq s;
     energy_breakdown :=
       energy_breakdown s
       ++ [{| Breakdown.id := i;
              Breakdown.timestamp := Breakdown.timestamp r;
              Breakdown.renewable_biomass := Breakdown.renewable_biomass r;
              Breakdown.renewable_hydro := Breakdown.renewable_hydro r;
              Breakdown.renewable_solar := Breakdown.renewable_solar r;
              Breakdown.renewable_wind := Breakdown.renewable_wind r;
              Breakdown.renewable_geothermal := Breakdown.renewable_geothermal r;
              Breakdown.renewable_otherrenewable :=
                Breakdown.renewable_otherrenewable r;
              Breakdown.renewable := Breakdown.renewable r;
              Breakdown.nonrenewable_coal := Breakdown.nonrenewable_coal r;
              Breakdown.nonrenewable_gas := Breakdown.nonrenewable_gas r;
              Breakdown.nonrenewable_nuclear := Breakdown.nonrenewable_nuclear r;
              Breakdown.nonrenewable_oil := Breakdown.nonrenewable_oil r;
              Breakdown.nonrenewable := Breakdown.nonrenewable r;
              Breakdown.hydropumpedstorage := Breakdown.hydropumpedstorage r;
              Breakdown.unknown := Breakdown.unknown r |}];
     energy_breakdown_seq := i |}.

(** ** The source files *)

(** What the CSV parser delivers.  [metadata.csv] is read with
    [headers: false], so every line, the first included, arrives as its cells
    in column order; the other two files are read with the parser's own
    header handling, one object per data line keyed by column name.  A file
    that does not exist is [None]. *)
Record sources := {
  metadata_csv : option (list (list string));
  smart_meter_csv : option (list (gmap string string));
  breakdown_csv : option (list (gmap string string))
}.

(** ** What the endpoints answer *)

(** A row of GET /api/buildings. *)
Module Building.
Record row := {
  cpe : string;
  lat : option Q;
  lon : option Q;
  totalarea : option Q;
  name : option string;
  fulladdress : option string;
  annual_energy : Q
}.
End Building.

(** A row of GET /api/energy/:cpe/:period. *)
Module Bucket.
(** [label] is the column the statement calls month, day or hour. *)
Record row := {
  label : option string;
  total_energy : option Q
}.
End Bucket.

(** A row of GET /api/buildings-energy. *)
Module BuildingEnergy.
Record row := {
  cpe : string;
  name : option string;
  lat : option Q;
  lon : option Q;
  totalarea : option Q;
  annual_energy : option Q
}.
End BuildingEnergy.

(** What [db.all] hands to its callback, and what the handler sends. *)
Inductive db_result (A : Type) :=
| DbError (message : string)
| DbRows (rows : list A).

Inductive response (A : Type) :=
| Json (status : Z) (rows : list A)
| JsonError (status : Z) (error : string).

Arguments DbError {A} message.
Arguments DbRows {A} rows.
Arguments Json {A} status rows.
Arguments JsonError {A} status error.

Section Server.

(** [parseFloat] on a string: [None] stands for NaN. *)
Variable parseFloat : string → option Q.

(** [strftime(format, text)] of the store: [None] stands for NULL, the
    answer for a text that is not a date. *)
Variable strftime : string → string → option string.

(** [parseFloat(v)] where [v] may be undefined; the NaN it then gives is
    stored as NULL. *)
Definition parseFloat_val (v : option string) : option Q := v ≫= parseFloat.

(** [strftime(format, x)] on a nullable column: NULL in, NULL out. *)
Definition strftime_val (format : string) (x : option string) : option string :=
  x ≫= strftime format.

(** ** loadCSVData: the metadata file *)

(** The variables the 'data' handler of the metadata stream closes over. *)
Record metadata_reader := {
  isFirstRow : bool;
  headers : list string;
  metadata_rows : list (gmap string string)
}.

(** [dataRow[headers[index]] = row[key]] for every cell; an index past the
    headers gives the key undefined.  The [replace] of a leading U+FEFF in
    a header changes nothing on these strings, whose code units stay below
    256, so a header is its cell trimmed. *)
Definition build_dataRow (hs : list string) (row : list string)
  : gmap string string :=
  foldl (λ dataRow '(index, v), JS.set_prop (JS.template (hs !! index)) v dataRow)
    ∅ (imap pair row).

Definition on_metadata_data (st : metadata_reader) (row : list string)
  : metadata_reader :=
  if isFirstRow st then
    {| isFirstRow := false;
       headers := JS.trim <$> row;
       metadata_rows := metadata_rows st |}
  else
    {| isFirstRow := false;
       headers := headers st;
       metadata_rows := metadata_rows st ++ [build_dataRow (headers st) row] |}.

Definition parse_metadata (lines : list (list string))
  : list (gmap string string) :=
  metadata_rows
    (foldl on_metadata_data
       {| isFirstRow := true; headers := []; metadata_rows := [] |} lines).

(** The six values bound by [stmt.run] for a row whose [cpe] is [c]. *)
Definition metadata_record (row : gmap string string) (c : string)
  : Metadata.row :=
  {| Metadata.cpe := JS.trim c;
     Metadata.lat := parseFloat_val (row !! "lat");
     Metadata.lon := parseFloat_val (row !! "lon");
     Metadata.totalarea := parseFloat_val (row !! "totalarea");
     Metadata.name := row !! "name";
     Metadata.fulladdress := row !! "fulladdress" |}.

(** The body of [metadata.forEach]: the relation and [insertedCount]. *)
Definition insert_metadata (st : list Metadata.row * Z)
  (row : gmap string string) : list Metadata.row * Z :=
  match row !! "cpe" with
  | Some c =>
      if JS.truthy c && JS.truthy (JS.trim c)
      then (insert_or_replace (metadata_record row c) st.1, (st.2 + 1)%Z)
      else st
  | None => st
  end.

(** The 'end' handler of the metadata stream. *)
Definition load_metadata (lines : list (list string)) (s : store) : store :=
  set_metadata (foldl insert_metadata (metadata s, 0%Z) (parse_metadata lines)).1 s.

(** ** loadCSVData: the meter readings *)

Definition smart_meter_maxRecords : Z := 10000.

(** The 'data' handler, on [count] and the store: a row is inserted, and
    counted, when [count < maxRecords && row.cpe]. *)
Definition on_smart_meter_data (st : Z * store) (row : gmap string string)
  : Z * store :=
  match row !! "cpe" with
  | Some c =>
      if (st.1 <? smart_meter_maxRecords)%Z && JS.truthy c
      then ((st.1 + 1)%Z,
            insert_smart_meter c (row !! "timestamp")
              (parseFloat_val (row !! "active_energy")) st.2)
      else st
  | None => st
  end.

Definition load_smart_meter (rows : list (gmap string string)) (s : store)
  : Z * store :=
  foldl on_smart_meter_data (0%Z, s) rows.

(** ** loadCSVData: the source breakdown *)

Definition breakdown_maxRecords : Z := 1000.

(** The fifteen values bound by [stmt.run]; the id is the store's to give. *)
Definition breakdown_record (row : gmap string string) : Breakdown.row :=
  {| Breakdown.id := 0;
     Breakdown.timestamp := row !! "timestamp";
     Breakdown.renewable_biomass := parseFloat_val (row !! "renewable_biomass");
     Breakdown.renewable_hydro := parseFloat_val (row !! "renewable_hydro");
     Breakdown.renewable_solar := parseFloat_val (row !! "renewable_solar");
     Breakdown.renewable_wind := parseFloat_val (row !! "renewable_wind");
     Breakdown.renewable_geothermal :=
       parseFloat_val (row !! "renewable_geothermal");
     Breakdown.renewable_otherrenewable :=
       parseFloat_val (row !! "renewable_otherrenewable");
     Breakdown.renewable := parseFloat_val (row !! "renewable");
     Breakdown.nonrenewable_coal := parseFloat_val (row !! "nonrenewable_coal");
     Breakdown.nonrenewable_gas := parseFloat_val (row !! "nonrenewable_gas");
     Breakdown.nonrenewable_nuclear :=
       parseFloat_val (row !! "nonrenewable_nuclear");
     Breakdown.nonrenewable_oil := parseFloat_val (row !! "nonrenewable_oil");
     Breakdown.nonrenewable := parseFloat_val (row !! "nonrenewable");
     Breakdown.hydropumpedstorage :=
       parseFloat_val (row !! "hydropumpedstorage");
     Breakdown.unknown := parseFloat_val (row !! "unknown") |}.

(** The 'data' handler: a row is inserted when [count < maxRecords]. *)
Definition on_breakdown_data (st : Z * store) (row : gmap string string)
  : Z * store :=
  if (st.1 <? breakdown_maxRecords)%Z
  then ((st.1 + 1)%Z, insert_breakdown (breakdown_record row) st.2)
  else st.

Definition load_breakdown (rows : list (gmap string string)) (s : store)
  : Z * store :=
  foldl on_breakdown_data (0%Z, s) rows.

(** ** loadCSVData *)

(** The three DELETEs, then each file that exists. *)
Definition loadCSVData (src : sources) (s : store) : store :=
  let s := delete_smart_meter_data s in
  let s := delete_energy_breakdown s in
  let s := delete_metadata s in
  let s := match metadata_csv src with
           | Some lines => load_metadata lines s
           | None => s
           end in
  let s := match smart_meter_csv src with
           | Some rows => (load_smart_meter rows s).2
           | None => s
           end in
  match breakdown_csv src with
  | Some rows => (load_breakdown rows s).2
  | None => s
  end.

(** ** The HTTP side *)

(** The callback every handler gives to [db.all]. *)
Definition respond {A} (r : db_result A) : response A :=
  match r with
  | DbError message => JsonError 500 message
  | DbRows rows => Json 200 rows
  end.

(** [metadata m LEFT JOIN smart_meter_data smd ON m.cpe = smd.cpe]: the
    rows of one building are its matching readings, or, without any, one row
    with every [smd] column NULL. *)
Definition joined (m : Metadata.row) (rs : list SmartMeter.row)
  : list (Metadata.row * option SmartMeter.row) :=
  match filter (λ r, Metadata.cpe m = SmartMeter.cpe r) rs with
  | [] => [(m, None)]
  | matched => (λ r, (m, Some r)) <$> matched
  end.

Definition left_join (ms : list Metadata.row) (rs : list SmartMeter.row)
  : list (Metadata.row * option SmartMeter.row) :=
  m ← ms; joined m rs.

(** A column of [smd] in a joined row. *)
Definition smd_timestamp (j : Metadata.row * option SmartMeter.row)
  : option string := j.2 ≫= SmartMeter.timestamp.

Definition smd_active_energy (j : Metadata.row * option SmartMeter.row)
  : option Q := j.2 ≫= SmartMeter.active_energy.

(** [GROUP BY m.cpe, m.name, m.lat, m.lon, m.totalarea, m.fulladdress]. *)
Definition same_building (a b : Metadata.row) : bool :=
  bool_decide (Metadata.cpe a = Metadata.cpe b)
  && SQL.same_text (Metadata.name a) (Metadata.name b)
  && SQL.same_real (Metadata.lat a) (Metadata.lat b)
  && SQL.same_real (Metadata.lon a) (Metadata.lon b)
  && SQL.same_real (Metadata.totalarea a) (Metadata.totalarea b)
  && SQL.same_text (Metadata.fulladdress a) (Metadata.fulladdress b).

(** *** GET /api/buildings *)


Definition buildings_row (g : Metadata.row * list (Metadata.row * option SmartMeter.row))
  : Building.row :=
  {| Building.cpe := Metadata.cpe g.1;
     Building.lat := Metadata.lat g.1;
     Building.lon := Metadata.lon g.1;
     Building.totalarea := Metadata.totalarea g.1;
     Building.name := Metadata.name g.1;
     Building.fulladdress := Metadata.fulladdress g.1;
     Building.annual_energy :=
       SQL.coalesce (SQL.sum (smd_active_energy <$> g.2)) 0 |}.

(** [ORDER BY annual_energy DESC]. *)
Definition buildings_order (a b : Building.row) : bool :=
  Qle_bool (Building.annual_energy b) (Building.annual_energy a).

Definition buildings_query (s : store) : db_result Building.row :=
  DbRows
    (SQL.order_by buildings_order
       (buildings_row
          <$> SQL.group_by same_building fst
                (left_join (metadata s) (smart_meter_data s)))).

Definition get_buildings (s : store) : response Building.row :=
  respond (buildings_query s).

(** *** GET /api/energy/:cpe/:period *)


Inductive energy_sql := MonthlySql | DailySql | HourlySql.

(** The [switch]: the statement and its parameters, or nothing for the
    default case. *)
Definition energy_switch (cpe period : string) (year month day : option string)
  : option (energy_sql * list (option string)) :=
  if bool_decide (period = "monthly") then
    Some (MonthlySql, [Some cpe; year])
  else if bool_decide (period = "daily") then
    Some (DailySql, [Some cpe; Some (JS.or_else month (JS.template year ++ "-01"))])
  else if bool_decide (period = "hourly") then
    Some (HourlySql,
          [Some cpe; Some (JS.or_else day (JS.template year ++ "-01-01"))])
  else None.

(** The [i]-th [?]; a parameter that was bound to undefined, or not bound,
    is NULL. *)
Definition param (params : list (option string)) (i : nat) : option string :=
  mjoin (params !! i).

(** [WHERE cpe = ? AND strftime(scope, timestamp) = ?]. *)
Definition energy_where (scope : string) (params : list (option string))
  (r : SmartMeter.row) : bool :=
  SQL.text_eq (Some (SmartMeter.cpe r)) (param params 0)
  && SQL.text_eq (strftime_val scope (SmartMeter.timestamp r)) (param params 1).

(** One output row per group: the selected [strftime(shown, timestamp)] is
    read off a row of the group (the store does not say which, the first is
    taken), next to [SUM(active_energy)]. *)
Definition bucket_row (shown : string) (g : option string * list SmartMeter.row)
  : Bucket.row :=
  {| Bucket.label := head g.2 ≫= λ r, strftime_val shown (SmartMeter.timestamp r);
     Bucket.total_energy := SQL.sum (SmartMeter.active_energy <$> g.2) |}.

Definition bucket_order (a b : Bucket.row) : bool :=
  SQL.text_le (Bucket.label a) (Bucket.label b).

(** The shape the three statements share: filter by [scope], group by
    [bucket], show [shown], order by the shown label. *)
Definition bucket_query (scope bucket shown : string)
  (params : list (option string)) (s : store) : list Bucket.row :=
  SQL.order_by bucket_order
    (bucket_row shown
       <$> SQL.group_by SQL.same_text
             (λ r, strftime_val bucket (SmartMeter.timestamp r))
             (filter (λ r, energy_where scope params r) (smart_meter_data s))).

Definition energy_query (q : energy_sql) (params : list (option string))
  (s : store) : db_result Bucket.row :=
  DbRows
    match q with
    | MonthlySql => bucket_query "%Y" "%Y-%m" "%Y-%m" params s
    | DailySql => bucket_query "%Y-%m" "%Y-%m-%d" "%Y-%m-%d" params s
    | HourlySql => bucket_query "%Y-%m-%d" "%H" "%H:00" params s
    end.

(** The handler's answer together with the statements it sent to the store. *)
Record handled := {
  issued : list (energy_sql * list (option string));
  reply : response Bucket.row
}.

Definition get_energy (s : store) (cpe period : string)
  (year month day : option string) : handled :=
  match energy_switch cpe period year month day with
  | None => {| issued := []; reply := JsonError 400 "Invalid period" |}
  | Some (q, params) =>
      {| issued := [(q, params)]; reply := respond (energy_query q params s) |}
  end.

(** *** GET /api/energy-breakdown *)

(** [ORDER BY timestamp]. *)
Definition breakdown_order (a b : Breakdown.row) : bool :=
  SQL.text_le (Breakdown.timestamp a) (Breakdown.timestamp b).

(** [SELECT * FROM energy_breakdown], with [WHERE timestamp LIKE ?] when a
    pattern is bound, then [ORDER BY timestamp LIMIT 24]. *)
Definition breakdown_query (pattern : option string) (s : store)
  : db_result Breakdown.row :=
  DbRows
    (SQL.limit 24
       (SQL.order_by breakdown_order
          match pattern with
          | Some p =>
              filter (λ r, SQL.like_val (Breakdown.timestamp r) (Some p))
                (energy_breakdown s)
          | None => energy_breakdown s
          end)).

Definition get_energy_breakdown (s : store) (timestamp : option string)
  : response Breakdown.row :=
  respond
    (breakdown_query
       (if JS.truthy_val timestamp
        then Some (JS.template timestamp ++ "%")
        else None)
       s).

(** *** GET /api/buildings-energy *)


(** [GROUP BY m.cpe, m.name, m.lat, m.lon, m.totalarea]. *)
Definition same_building_energy (a b : Metadata.row) : bool :=
  bool_decide (Metadata.cpe a = Metadata.cpe b)
  && SQL.same_text (Metadata.name a) (Metadata.name b)
  && SQL.same_real (Metadata.lat a) (Metadata.lat b)
  && SQL.same_real (Metadata.lon a) (Metadata.lon b)
  && SQL.same_real (Metadata.totalarea a) (Metadata.totalarea b).

Definition buildings_energy_row
  (g : Metadata.row * list (Metadata.row * option SmartMeter.row))
  : BuildingEnergy.row :=
  {| BuildingEnergy.cpe := Metadata.cpe g.1;
     BuildingEnergy.name := Metadata.name g.1;
     BuildingEnergy.lat := Metadata.lat g.1;
     BuildingEnergy.lon := Metadata.lon g.1;
     BuildingEnergy.totalarea := Metadata.totalarea g.1;
     BuildingEnergy.annual_energy := SQL.sum (smd_active_energy <$> g.2) |}.

(** [ORDER BY annual_energy DESC]: NULL comes last. *)
Definition buildings_energy_order (a b : BuildingEnergy.row) : bool :=
  SQL.real_le (BuildingEnergy.annual_energy b) (BuildingEnergy.annual_energy a).

(** The join, then [WHERE strftime('%Y', smd.timestamp) = ?], then the
    groups. *)
Definition buildings_energy_query (year : option string) (s : store)
  : db_result BuildingEnergy.row :=
  DbRows
    (SQL.order_by buildings_energy_order
       (buildings_energy_row
          <$> SQL.group_by same_building_energy fst
                (filter (λ j, SQL.text_eq (strftime_val "%Y" (smd_timestamp j)) year)
                   (left_join (metadata s) (smart_meter_data s))))).

Definition get_buildings_energy (s : store) (year : option string)
  : response BuildingEnergy.row :=
  respond (buildings_energy_query (Some (JS.or_else year "2021")) s).

End Server.

(** ** GET /api/debug/metadata *)

(** The object the debug endpoint answers with. *)
Module Debug.
Record info := {
  count : Z;
  sample : list Metadata.row;
  columns : list string
}.
End Debug.

Inductive debug_response :=
| DebugJson (status : Z) (body : Debug.info)
| DebugError (status : Z) (error : string).

(** [Object.keys] of a row of [SELECT * FROM metadata]. *)
Definition metadata_columns : list string :=
  ["cpe"; "lat"; "lon"; "totalarea"; "name"; "fulladdress"].

(** [SELECT * FROM metadata LIMIT 5], the rows in rowid order. *)
Definition debug_query (s : store) : db_result Metadata.row :=
  DbRows (SQL.limit 5 (metadata s)).

Definition get_debug_metadata (s : store) : debug_response :=
  match debug_query s with
  | DbError message => DebugError 500 message
  | DbRows rows =>
      DebugJson 200
        {| Debug.count := Z.of_nat (length rows);
           Debug.sample := rows;
           Debug.columns :=
             match rows with [] => [] | _ :: _ => metadata_columns end |}
  end.

(** ** initializeDatabase and startServer *)

(** The database file as the program finds it at start: each relation may
    or may not exist yet, an AUTOINCREMENT relation comes with its id
    counter, and the indexes are known by name. *)
Record database := {
  metadata_table : option (list Metadata.row);
  smart_meter_data_table : option (list SmartMeter.row * Z);
  energy_breakdown_table : option (list Breakdown.row * Z);
  indexes : gset string
}.

(** [CREATE TABLE IF NOT EXISTS]: an existing relation is left alone, a
    missing one is created empty. *)
Definition create_table_if_not_exists {A} (empty : A) (t : option A)
  : option A :=
  match t with
  | Some rows => Some rows
  | None => Some empty
  end.

(** [CREATE INDEX IF NOT EXISTS]. *)
Definition create_index_if_not_exists (name : string) (ix : gset string)
  : gset string := ix ∪ {[ name ]}.

Definition initializeDatabase (d : database) : database :=
  {| metadata_table := create_table_if_not_exists [] (metadata_table d);
     smart_meter_data_table :=
       create_table_if_not_exists ([], 0%Z) (smart_meter_data_table d);
     energy_breakdown_table :=
       create_table_if_not_exists ([], 0%Z) (energy_breakdown_table d);
     indexes :=
       create_index_if_not_exists "idx_breakdown_timestamp"
         (create_index_if_not_exists "idx_smart_meter_timestamp"
            (create_index_if_not_exists "idx_smart_meter_cpe" (indexes d))) |}.

(** The store the statements of the loader and of the handlers work on,
    once the three relations exist. *)
Definition open_store (d : database) : option store :=
  ms ← metadata_table d;
  smd ← smart_meter_data_table d;
  eb ← energy_breakdown_table d;
  Some {| metadata := ms;
          smart_meter_data := smd.1; smart_meter_data_seq := smd.2;
          energy_breakdown := eb.1; energy_breakdown_seq := eb.2 |}.

(** startServer up to [app.listen]: the schema, then the load; the store
    the handlers then read. *)
Definition startServer (parseFloat : string → option Q) (src : sources)
  (d : database) : option store :=
  loadCSVData parseFloat src <$> open_store (initializeDatabase d).

(** ** Instances of the builtins, for running the model *)

Module Builtins.

Definition digit (c : ascii) : option Z :=
  let n := N_of_ascii c in
  if ((48 <=? n) && (n <=? 57))%N then Some (Z.of_N n - 48)%Z else None.

(** The run of digits at the head of [l]: its value on top of [acc], how
    many digits it has, and what follows. *)
Fixpoint digits (l : list ascii) (acc : Z) (n : nat) : Z * nat * list ascii :=
  match l with
  | [] => (acc, n, [])
  | c :: l' =>
      match digit c with
      | Some d => digits l' (10 * acc + d)%Z (S n)
      | None => (acc, n, l)
      end
  end.

Definition signed (l : list ascii) : bool * list ascii :=
  match l with
  | c :: l' =>
      if bool_decide (c = "-"%char) then (true, l')
      else if bool_decide (c = "+"%char) then (false, l')
      else (false, l)
  | [] => (false, [])
  end.

(** The exponent part at the head of [l], 0 when there is none. *)
Definition exponent (l : list ascii) : Z :=
  match l with
  | c :: l' =>
      if bool_decide (c = "e"%char) || bool_decide (c = "E"%char) then
        let '(neg, l'') := signed l' in
        let '(e, n, _) := digits l'' 0 0 in
        if neg then (- e)%Z else e
      else 0%Z
  | [] => 0%Z
  end.

(** [parseFloat] on decimal numerals: leading white space, a sign, digits,
    a fraction, an exponent; what follows the numeral is ignored, and a text
    that does not start with a numeral is NaN.  (The numeral Infinity has no
    rational value and is not read.) *)
Definition parseFloat (s : string) : option Q :=
  let '(neg, l) := signed (JS.drop_spaces (list_ascii_of_string s)) in
  let '(i, ni, l1) := digits l 0 0 in
  let '(f, nf, l2) :=
    match l1 with
    | c :: l' => if bool_decide (c = "."%char) then digits l' 0 0 else (0%Z, 0%nat, l1)
    | [] => (0%Z, 0%nat, l1)
    end in
  if bool_decide (ni + nf = 0)%nat then None
  else
    let scale := (10 ^ Z.of_nat nf)%Z in
    let m := (inject_Z (i * scale + f) / inject_Z scale)%Q in
    let v := (m * inject_Z 10 ^ exponent l2)%Q in
    Some (Qred (if neg then - v else v)%Q).

(** A date and time of day read off a text. *)
Record datetime := {
  dt_year : Z; dt_month : Z; dt_day : Z; dt_hour : Z
}.

(** Exactly [n] digits at the head of [l]. *)
Fixpoint fixed (n : nat) (l : list ascii) (acc : Z) : option (Z * list ascii) :=
  match n with
  | O => Some (acc, l)
  | S n' =>
      match l with
      | c :: l' => d ← digit c; fixed n' l' (10 * acc + d)%Z
      | [] => None
      end
  end.

Definition expect (c : ascii) (l : list ascii) : option (list ascii) :=
  match l with
  | d :: l' => if bool_decide (c = d) then Some l' else None
  | [] => None
  end.

Definition leap (y : Z) : bool :=
  ((y mod 4 =? 0) && negb (y mod 100 =? 0) || (y mod 400 =? 0))%Z.

Definition days_in (y m : Z) : Z :=
  if (m =? 2)%Z then (if leap y then 29 else 28)%Z
  else if ((m =? 4) || (m =? 6) || (m =? 9) || (m =? 11))%Z then 30%Z
  else 31%Z.

(** The time of day after the date: nothing, or a blank or T and then HH:MM
    or HH:MM:SS. *)
Definition time_of_day (l : list ascii) : option Z :=
  match l with
  | [] => Some 0%Z
  | c :: l' =>
      if bool_decide (c = " "%char) || bool_decide (c = "T"%char) then
        '(h, l) ← fixed 2 l' 0;
        l ← expect ":" l;
        '(mi, l) ← fixed 2 l 0;
        if ((h <? 24) && (mi <? 60))%Z then
          match l with
          | [] => Some h
          | _ =>
              l ← expect ":" l;
              '(sec, l) ← fixed 2 l 0;
              match l with
              | [] => if (sec <? 60)%Z then Some h else None
              | _ => None
              end
          end
        else None
      else None
  end.

(** A calendar date YYYY-MM-DD, alone or followed by a time of day. *)
Definition read_datetime (s : string) : option datetime :=
  '(y, l) ← fixed 4 (list_ascii_of_string s) 0;
  l ← expect "-" l;
  '(m, l) ← fixed 2 l 0;
  l ← expect "-" l;
  '(d, l) ← fixed 2 l 0;
  h ← time_of_day l;
  if ((1 <=? m) && (m <=? 12) && (1 <=? d) && (d <=? days_in y m))%Z
  then Some {| dt_year := y; dt_month := m; dt_day := d; dt_hour := h |}
  else None.

Definition digit_char (d : Z) : ascii := ascii_of_N (Z.to_N (d mod 10) + 48).

Definition two (n : Z) : list ascii := [digit_char (n / 10); digit_char n].

Definition four (n : Z) : list ascii :=
  [digit_char (n / 1000); digit_char (n / 100); digit_char (n / 10);
   digit_char n].

(** The format: %Y, %m, %d and %H are replaced, % before anything else is
    an error, every other character stands for itself. *)
Fixpoint render (format : list ascii) (t : datetime) : option (list ascii) :=
  match format with
  | [] => Some []
  | c :: f' =>
      if bool_decide (c = "%"%char) then
        match f' with
        | k :: f'' =>
            field ←
              (if bool_decide (k = "Y"%char) then Some (four (dt_year t))
               else if bool_decide (k = "m"%char) then Some (two (dt_month t))
               else if bool_decide (k = "d"%char) then Some (two (dt_day t))
               else if bool_decide (k = "H"%char) then Some (two (dt_hour t))
               else None);
            rest ← render f'' t;
            Some (field ++ rest)%list
        | [] => None
        end
      else (rest ← render f' t; Some (c :: rest))
  end.

(** [strftime] on the texts [read_datetime] accepts; NULL on every other
    text. *)
Definition strftime (format text : string) : option string :=
  t ← read_datetime text;
  string_of_list_ascii <$> render (list_ascii_of_string format) t.

End Builtins.

(** ** Sample data *)

Module Demo.

Definition metadata_lines : list (list string) :=
  [ ["cpe"; "lat"; "lon"; "totalarea"; "name"; "fulladdress"];
    ["B1"; "40.0"; "-73.9"; "1000"; "A"; "1 Main St"];
    [""; "41"; "-74"; "500"; "B"; "2 Main St"];
    [" B2 "; "42.5"; "-75"; "n/a"; "C"; "3 Main St"] ].

Definition meter (cpe timestamp active_energy : string) : gmap string string :=
  list_to_map
    [("cpe", cpe); ("timestamp", timestamp); ("active_energy", active_energy)].

Definition meter_rows : list (gmap string string) :=
  [ meter "B1" "2021-01-15T08:00:00" "4";
    meter "B1" "2021-03-01T00:00:00" "5.0";
    meter "B1" "2021-03-02T00:00:00" "3.0";
    meter "B1" "2021-04-01T10:15:00" "1.5";
    meter "" "2021-04-01T10:15:00" "9";
    meter "B1" "2022-01-01T00:00:00" "2" ].

Definition mix (timestamp renewable nonrenewable : string)
  : gmap string string :=
  list_to_map
    [("timestamp", timestamp); ("renewable", renewable);
     ("nonrenewable", nonrenewable)].

Definition breakdown_rows : list (gmap string string) :=
  [ mix "2021-01-01 01:00:00" "60" "40";
    mix "2021-01-01 00:00:00" "55" "45";
    mix "2021-01-02 00:00:00" "50" "50" ].

Definition files : sources :=
  {| metadata_csv := Some metadata_lines;
     smart_meter_csv := Some meter_rows;
     breakdown_csv := Some breakdown_rows |}.

(** The store after one load of [files] into a fresh database. *)
Definition db : store := loadCSVData Builtins.parseFloat files empty_store.

End Demo.

(** ** Notions used in the statements *)

Section Notions.
Variable parseFloat : string → option Q.
Variable strftime : string → string → option string.

(** The records the metadata loader binds, one per row that passes its
    test, in source order. *)
Definition kept_metadata (rows : list (gmap string string)) : list Metadata.row :=
  omap (λ row,
          c ← row !! "cpe";
          if JS.truthy c && JS.truthy (JS.trim c)
          then Some (metadata_record parseFloat row c) else None) rows.

(** The three values the meter loader binds for a row that passes its test
    (a [cpe] that is present and not the empty string), as a row without id. *)
Definition meter_record (row : gmap string string) : option SmartMeter.row :=
  c ← row !! "cpe";
  if JS.truthy c
  then Some {| SmartMeter.id := 0; SmartMeter.cpe := c;
               SmartMeter.timestamp := row !! "timestamp";
               SmartMeter.active_energy :=
                 parseFloat_val parseFloat (row !! "active_energy") |}
  else None.

Definition kept_meter (rows : list (gmap string string)) : list SmartMeter.row :=
  omap meter_record rows.

(** The reading is one of building [cpe] and the store reads the year [year]
    off its timestamp. *)
Definition reading_in_year (cpe year : string) (r : SmartMeter.row) : Prop :=
  SmartMeter.cpe r = cpe
  ∧ strftime_val strftime "%Y" (SmartMeter.timestamp r) = Some year.

#[global] Instance reading_in_year_dec cpe year r :
  Decision (reading_in_year cpe year r).
Proof. unfold reading_in_year. apply _. Defined.

(** The reading is one of building [cpe] and [strftime(format, timestamp)]
    is the text [value]. *)
Definition reading_at (format cpe value : string) (r : SmartMeter.row) : Prop :=
  SmartMeter.cpe r = cpe
  ∧ strftime_val strftime format (SmartMeter.timestamp r) = Some value.

#[global] Instance reading_at_dec format cpe value r :
  Decision (reading_at format cpe value r).
Proof. unfold reading_at. apply _. Defined.

(** The readings of building [cpe] in the year [year], the month the store
    reads off a reading, the months that occur among these readings, and the
    output row of one month. *)
Definition readings_in_year (cpe year : string) (s : store)
  : list SmartMeter.row :=
  filter (reading_in_year cpe year) (smart_meter_data s).

Definition month_of (r : SmartMeter.row) : option string :=
  strftime_val strftime "%Y-%m" (SmartMeter.timestamp r).

Definition months_of (cpe year : string) (s : store) : list (option string) :=
  SQL.group_keys SQL.same_text (month_of <$> readings_in_year cpe year s).

Definition month_bucket (cpe year : string) (s : store) (k : option string)
  : Bucket.row :=
  bucket_row strftime "%Y-%m"
    (k, filter (λ r, SQL.same_text k (month_of r)) (readings_in_year cpe year s)).

(** The entry of building [m] for the year [year]: its columns and the SUM
    over its readings of that year. *)
Definition building_year_row (year : string) (s : store) (m : Metadata.row)
  : BuildingEnergy.row :=
  {| BuildingEnergy.cpe := Metadata.cpe m;
     BuildingEnergy.name := Metadata.name m;
     BuildingEnergy.lat := Metadata.lat m;
     BuildingEnergy.lon := Metadata.lon m;
     BuildingEnergy.totalarea := Metadata.totalarea m;
     BuildingEnergy.annual_energy :=
       SQL.sum (SmartMeter.active_energy
                  <$> readings_in_year (Metadata.cpe m) year s) |}.

End Notions.

(** A joined row with its reading replaced by [h] of it. *)
Definition map_reading (h : SmartMeter.row → SmartMeter.row)
  (j : Metadata.row * option SmartMeter.row)
  : Metadata.row * option SmartMeter.row := (j.1, h <$> j.2).

(** [INSERT OR REPLACE] of the records [recs], one after the other. *)
Definition replace_all (recs t : list Metadata.row) : list Metadata.row :=
  foldl (λ t r, insert_or_replace r t) t recs.

(** A NULL total counts as 0 when totals are added up. *)
Definition energy (v : option Q) : Q := SQL.coalesce v 0.

(** A text without the wildcards of LIKE ([%] is 37, [_] is 95) and without
    ASCII letters. *)
Definition plain_char (c : ascii) : bool :=
  let n := N_of_ascii c in
  negb ((n =? 37) || (n =? 95)
        || (65 <=? n) && (n <=? 90) || (97 <=? n) && (n <=? 122))%N.

Definition plain (p : string) : bool :=
  forallb plain_char (list_ascii_of_string p).

(** The readings of building [c]. *)
Definition readings_of (c : string) (s : store) : list SmartMeter.row :=
  filter (λ r, SmartMeter.cpe r = c) (smart_meter_data s).

(** The rows of an answer; an error carries none. *)
Definition rows_of {A} (r : response A) : list A :=
  match r with Json _ rows => rows | JsonError _ _ => [] end.

(** The breakdown row is one the request asks for: every row when no
    timestamp (or an empty one) is given, else the rows whose timestamp is
    LIKE the given text followed by [%]. *)
Definition selected (timestamp : option string) (r : Breakdown.row) : bool :=
  match timestamp with
  | Some p =>
      if JS.truthy p
      then SQL.like_val (Breakdown.timestamp r) (Some (p ++ "%"))
      else true
  | None => true
  end.

(** The largest id a relation has ever handed out: the larger of its
    counter and of the ids it holds. *)
Definition largest_id (seq : Z) (ids : list Z) : Z :=
  Z.max seq (foldr Z.max 0%Z ids).

(** * Properties *)

Open Scope list_scope.

(** ** Examples *)

Example parseFloat_examples :
  Builtins.parseFloat "5.0" = Some 5%Q
  ∧ Builtins.parseFloat " -12.50kWh" = Some (-25 # 2)%Q
  ∧ Builtins.parseFloat "1.5e3" = Some 1500%Q
  ∧ Builtins.parseFloat "" = None
  ∧ Builtins.parseFloat "n/a" = None.
Proof. repeat split; vm_compute; reflexivity. Qed.

Example strftime_examples :
  Builtins.strftime "%Y-%m" "2021-03-01T00:00:00" = Some "2021-03"
  ∧ Builtins.strftime "%H:00" "2021-03-01 17:45" = Some "17:00"
  ∧ Builtins.strftime "%Y" "2021-03-01" = Some "2021"
  ∧ Builtins.strftime "%Y" "2021-02-30" = None
  ∧ Builtins.strftime "%Y" "yesterday" = None.
Proof. repeat split; vm_compute; reflexivity. Qed.

Example trim_examples :
  JS.trim "  B1 " = "B1" ∧ JS.trim "   " = "" ∧ JS.trim "a b" = "a b".
Proof. repeat split; vm_compute; reflexivity. Qed.

Example like_examples :
  SQL.like "2021-01%" "2021-01-05 10:00:00" = true
  ∧ SQL.like "2021-01%" "2021-02-05 10:00:00" = false
  ∧ SQL.like "2021_01%" "2021-01-05" = true
  ∧ SQL.like "2021-01-05t%" "2021-01-05T10:00:00" = true
  ∧ SQL.like "%" "" = true.
Proof. repeat split; vm_compute; reflexivity. Qed.


(** ** The language builtins *)

Lemma drop_spaces_idemp l : JS.drop_spaces (JS.drop_spaces l) = JS.drop_spaces l.
Proof.
  induction l as [|c l IH]; simpl; [done|].
  destruct (JS.is_space c) eqn:E; [done|]. simpl. by rewrite E.
Qed.

Lemma drop_spaces_snoc l c :
  JS.is_space c = false → ∃ l', JS.drop_spaces (l ++ [c]) = l' ++ [c].
Proof.
  intros Hc. induction l as [|d l [l' IH]]; simpl.
  - exists []. by rewrite Hc.
  - destruct (JS.is_space d); [by exists l'|]. by exists (d :: l).
Qed.

Lemma drop_spaces_rev_fixed l :
  JS.drop_spaces l = l →
  JS.drop_spaces (rev (JS.drop_spaces (rev l))) = rev (JS.drop_spaces (rev l)).
Proof.
  destruct l as [|c l]; [done|]. simpl.
  destruct (JS.is_space c) eqn:E.
  - intros H. apply (f_equal length) in H. simpl in H.
    assert (length (JS.drop_spaces l) ≤ length l)%nat; [|lia].
    clear. induction l as [|d l IH]; simpl; [done|].
    destruct (JS.is_space d); simpl; lia.
  - intros _. destruct (drop_spaces_snoc (rev l) c E) as [l' ->].
    rewrite rev_unit. simpl. by rewrite E.
Qed.

(** A trimmed string stays as it is under [trim]. *)
Lemma trim_idemp s : JS.trim (JS.trim s) = JS.trim s.
Proof.
  unfold JS.trim. rewrite list_ascii_of_string_of_list_ascii. f_equal.
  set (l1 := JS.drop_spaces (list_ascii_of_string s)).
  rewrite (drop_spaces_rev_fixed l1) by apply drop_spaces_idemp.
  by rewrite rev_involutive, drop_spaces_idemp.
Qed.

Lemma truthy_spec s : JS.truthy s = true ↔ s ≠ "".
Proof. by destruct s. Qed.

(** The test [row.cpe && row.cpe.trim()] of the metadata loader. *)
Lemma valid_cpe_spec c :
  JS.truthy c && JS.truthy (JS.trim c) = true ↔ JS.trim c ≠ "".
Proof.
  rewrite andb_true_iff, !truthy_spec. split; [tauto|].
  intros H. split; [|done]. intros ->. by apply H.
Qed.

(** ** Filters *)

Lemma filter_fmap_comm {A B} (h : A → B) (P : B → Prop)
  `{∀ y, Decision (P y)} (l : list A) :
  filter P (h <$> l) = h <$> filter (λ x, P (h x)) l.
Proof.
  induction l as [|x l IH]; [done|]. rewrite fmap_cons, !filter_cons.
  destruct (decide (P (h x))); by rewrite IH.
Qed.

Lemma filter_nothing {A} (P : A → Prop) `{∀ x, Decision (P x)} (l : list A) :
  (∀ x, x ∈ l → ¬ P x) → filter P l = [].
Proof.
  intros HP. induction l as [|x l IH]; [done|].
  rewrite filter_cons_False by (apply HP; left).
  apply IH. intros y Hy. apply HP. by right.
Qed.

Lemma filter_all_of {A} (P : A → Prop) `{∀ x, Decision (P x)} (l : list A) :
  (∀ x, x ∈ l → P x) → filter P l = l.
Proof.
  intros HP. induction l as [|x l IH]; [done|].
  rewrite filter_cons_True by (apply HP; left).
  f_equal. apply IH. intros y Hy. apply HP. by right.
Qed.

(** ** ORDER BY *)

Section OrderBy.
Context {A : Type} (le : A → A → bool).

Lemma insert_by_Permutation x l : SQL.insert_by le x l ≡ₚ x :: l.
Proof.
  induction l as [|y l IH]; simpl; [done|].
  destruct (le x y); [done|]. rewrite IH. apply Permutation_swap.
Qed.

Lemma order_by_Permutation l : SQL.order_by le l ≡ₚ l.
Proof.
  induction l as [|x l IH]; simpl; [done|].
  by rewrite insert_by_Permutation, IH.
Qed.

Lemma order_by_elem_of x l : x ∈ SQL.order_by le l ↔ x ∈ l.
Proof. by rewrite order_by_Permutation. Qed.

Lemma order_by_length l : length (SQL.order_by le l) = length l.
Proof. by rewrite order_by_Permutation. Qed.

Hypothesis le_total : ∀ x y, le x y = true ∨ le y x = true.

Lemma insert_by_Sorted x l :
  Sorted (λ a b, le a b = true) l →
  Sorted (λ a b, le a b = true) (SQL.insert_by le x l).
Proof.
  induction 1 as [|y l Hs IH Hd]; simpl; [by repeat constructor|].
  destruct (le x y) eqn:E.
  - by repeat constructor.
  - constructor; [done|].
    assert (le y x = true) by (destruct (le_total x y); congruence).
    destruct Hd as [|z l Hyz]; simpl; [by constructor|].
    destruct (le x z); by constructor.
Qed.

Lemma order_by_Sorted l : Sorted (λ a b, le a b = true) (SQL.order_by le l).
Proof. induction l; simpl; [constructor|by apply insert_by_Sorted]. Qed.

Hypothesis le_trans : ∀ x y z, le x y = true → le y z = true → le x z = true.

Lemma order_by_StronglySorted l :
  StronglySorted (λ a b, le a b = true) (SQL.order_by le l).
Proof.
  apply Sorted_StronglySorted; [|apply order_by_Sorted].
  intros x y z. apply le_trans.
Qed.

End OrderBy.

(** ** GROUP BY *)

Section GroupBy.
Context {K : Type} (same : K → K → bool).

Lemma group_keys_elem_of k ks : k ∈ SQL.group_keys same ks → k ∈ ks.
Proof.
  induction ks as [|k0 ks IH]; simpl; [done|].
  rewrite elem_of_cons, list_elem_of_filter.
  intros [->|[_ H]]; [left|right; auto].
Qed.

Hypothesis same_refl : ∀ k, same k k = true.

Lemma group_keys_NoDup ks : NoDup (SQL.group_keys same ks).
Proof.
  induction ks as [|k ks IH]; simpl; [constructor|].
  constructor; [|by apply NoDup_filter].
  rewrite list_elem_of_filter, same_refl. simpl. tauto.
Qed.

Hypothesis same_trans : ∀ a b c, same a b = true → same b c = true → same a c = true.

Lemma group_keys_cover k ks :
  k ∈ ks → ∃ k', k' ∈ SQL.group_keys same ks ∧ same k' k = true.
Proof.
  induction ks as [|k0 ks IH]; simpl; [by intros ?%elem_of_nil|].
  intros [->|Hin]%elem_of_cons.
  - exists k0. split; [left|done].
  - destruct (IH Hin) as (k' & Hk' & Hs).
    destruct (same k0 k') eqn:E.
    + exists k0. split; [left|by eapply same_trans].
    + exists k'. split; [|done]. right.
      apply list_elem_of_filter. by rewrite E.
Qed.

End GroupBy.

Lemma group_by_elem_of {A K} (same : K → K → bool) (key : A → K) l g :
  g ∈ SQL.group_by same key l →
  g.1 ∈ key <$> l ∧ g.2 = filter (λ x, same g.1 (key x)) l.
Proof.
  unfold SQL.group_by. intros (k & -> & Hk)%list_elem_of_fmap.
  split; [|done]. by apply group_keys_elem_of in Hk.
Qed.

(** ** SUM *)

Lemma total_cons q l : SQL.total (q :: l) = (q + SQL.total l)%Q.
Proof. done. Qed.

Lemma total_app l1 l2 : (SQL.total (l1 ++ l2) == SQL.total l1 + SQL.total l2)%Q.
Proof.
  induction l1 as [|q l1 IH]; simpl; [by rewrite Qplus_0_l|].
  rewrite IH. apply Qplus_assoc.
Qed.

Lemma total_Permutation l1 l2 : l1 ≡ₚ l2 → (SQL.total l1 == SQL.total l2)%Q.
Proof.
  induction 1 as [|q l1 l2 _ IH|p q l|l1 l2 l3 _ IH1 _ IH2]; simpl.
  - reflexivity.
  - by rewrite IH.
  - rewrite !Qplus_assoc. by rewrite (Qplus_comm p q).
  - by rewrite IH1.
Qed.

(** [COALESCE(SUM(x), 0)] is the sum in which every NULL counts as 0. *)
Lemma coalesce_sum vs :
  (SQL.coalesce (SQL.sum vs) 0 == SQL.total ((λ v, SQL.coalesce v 0) <$> vs))%Q.
Proof.
  assert (SQL.total (omap id vs) == SQL.total ((λ v, SQL.coalesce v 0) <$> vs))%Q
    as <-.
  { induction vs as [|[q|] vs IH]; simpl; [reflexivity| |].
    - by rewrite IH.
    - by rewrite IH, Qplus_0_l. }
  unfold SQL.sum. destruct (omap id vs); simpl; reflexivity.
Qed.

Lemma sum_all_null vs : (∀ v, v ∈ vs → v = None) → SQL.sum vs = None.
Proof.
  intros H. unfold SQL.sum.
  assert (omap id vs = []) as ->; [|done].
  induction vs as [|v vs IH]; [done|].
  rewrite (H v) by left. simpl. apply IH. intros ??. apply H. by right.
Qed.

(** ** INSERT OR REPLACE *)

Lemma replace_all_snoc recs r t :
  replace_all (recs ++ [r]) t = insert_or_replace r (replace_all recs t).
Proof. unfold replace_all. by rewrite foldl_app. Qed.

Lemma replace_all_elem_of recs m : m ∈ replace_all recs [] → m ∈ recs.
Proof.
  induction recs as [|r recs IH] using rev_ind; [done|].
  rewrite replace_all_snoc. unfold insert_or_replace.
  rewrite !elem_of_app, list_elem_of_filter. intros [[_ H]|H]; auto.
Qed.

Lemma replace_all_key recs r :
  r ∈ recs → ∃ m, m ∈ replace_all recs [] ∧ Metadata.cpe m = Metadata.cpe r.
Proof.
  induction recs as [|r0 recs IH] using rev_ind; [by intros ?%elem_of_nil|].
  rewrite replace_all_snoc. unfold insert_or_replace.
  intros [Hin| ->%list_elem_of_singleton]%elem_of_app.
  - destruct (IH Hin) as (m & Hm & Hk).
    destruct (decide (Metadata.cpe m = Metadata.cpe r0)) as [E|E].
    + exists r0. split; [|congruence]. apply elem_of_app. right. by left.
    + exists m. split; [|done]. apply elem_of_app. left.
      by apply list_elem_of_filter.
  - exists r0. split; [|done]. apply elem_of_app. right. by left.
Qed.

Lemma insert_or_replace_pk r t :
  NoDup (Metadata.cpe <$> t) → NoDup (Metadata.cpe <$> insert_or_replace r t).
Proof.
  intros Ht. unfold insert_or_replace. rewrite fmap_app. apply NoDup_app.
  split; [|split].
  - clear -Ht. induction t as [|m t IH]; [constructor|].
    rewrite fmap_cons in Ht. apply NoDup_cons in Ht as [Hm Ht].
    rewrite filter_cons. case_decide; [|by apply IH].
    rewrite fmap_cons. constructor; [|by apply IH].
    intros (m' & E & [_ Hin]%list_elem_of_filter)%list_elem_of_fmap.
    apply Hm. by apply (list_elem_of_fmap_2' _ _ m').
  - intros k (m & -> & [Hne _]%list_elem_of_filter)%list_elem_of_fmap.
    by intros E%list_elem_of_singleton.
  - repeat constructor. by intros ?%elem_of_nil.
Qed.

Lemma replace_all_pk recs t :
  NoDup (Metadata.cpe <$> t) → NoDup (Metadata.cpe <$> replace_all recs t).
Proof.
  revert t. induction recs as [|r recs IH]; intros t Ht; [done|].
  apply IH. by apply insert_or_replace_pk.
Qed.

Lemma replace_all_distinct recs :
  NoDup (Metadata.cpe <$> recs) → replace_all recs [] = recs.
Proof.
  induction recs as [|r recs IH] using rev_ind; [done|].
  rewrite fmap_app. intros (Hrecs & Hr & _)%NoDup_app.
  rewrite replace_all_snoc, IH by done. unfold insert_or_replace. f_equal.
  clear IH Hrecs. induction recs as [|m recs IH]; [done|].
  rewrite filter_cons. case_decide as E.
  - f_equal. apply IH. intros k Hk. apply Hr. by right.
  - exfalso. apply (Hr (Metadata.cpe m)); [by left|].
    apply list_elem_of_singleton. by rewrite E.
Qed.

(** The stored row of a key is the last record bound under that key. *)
Lemma replace_all_last recs m :
  m ∈ replace_all recs [] →
  ∃ before after, recs = before ++ m :: after
    ∧ ∀ r, r ∈ after → Metadata.cpe r ≠ Metadata.cpe m.
Proof.
  induction recs as [|r0 recs IH] using rev_ind; [by intros ?%elem_of_nil|].
  rewrite replace_all_snoc. unfold insert_or_replace.
  intros [[Hne Hin]%list_elem_of_filter| ->%list_elem_of_singleton]%elem_of_app.
  - destruct (IH Hin) as (before & after & -> & Hafter).
    exists before, (after ++ [r0]). split; [by rewrite <- app_assoc|].
    intros r [?| ->%list_elem_of_singleton]%elem_of_app; [by apply Hafter|].
    congruence.
  - exists recs, []. split; [done|]. by intros ? ?%elem_of_nil.
Qed.

(** ** The loader *)

Section Loader.
Variable parseFloat : string → option Q.

Lemma foldl_insert_metadata rows t n :
  foldl (insert_metadata parseFloat) (t, n) rows
  = (replace_all (kept_metadata parseFloat rows) t,
     (n + Z.of_nat (length (kept_metadata parseFloat rows)))%Z).
Proof.
  revert t n. induction rows as [|row rows IH]; intros t n; simpl.
  - f_equal. lia.
  - unfold insert_metadata at 2. unfold kept_metadata. simpl.
    destruct (row !! "cpe") as [c|]; simpl; [|apply IH].
    destruct (JS.truthy c && JS.truthy (JS.trim c)); simpl; [|apply IH].
    rewrite IH. f_equal. unfold kept_metadata. lia.
Qed.

Lemma kept_metadata_elem_of rows m :
  m ∈ kept_metadata parseFloat rows ↔
  ∃ row c, row ∈ rows ∧ row !! "cpe" = Some c ∧ JS.trim c ≠ ""
           ∧ m = metadata_record parseFloat row c.
Proof.
  unfold kept_metadata. rewrite list_elem_of_omap. split.
  - intros (row & Hin & H). destruct (row !! "cpe") as [c|] eqn:E; [|done].
    simpl in H. destruct (JS.truthy c && JS.truthy (JS.trim c)) eqn:V; [|done].
    exists row, c. apply valid_cpe_spec in V. by inversion H.
  - intros (row & c & Hin & E & V & ->). exists row. split; [done|].
    rewrite E. simpl. apply valid_cpe_spec in V. by rewrite V.
Qed.

Lemma load_smart_meter_frame rows st :
  metadata (foldl (on_smart_meter_data parseFloat) st rows).2 = metadata st.2
  ∧ energy_breakdown (foldl (on_smart_meter_data parseFloat) st rows).2
    = energy_breakdown st.2
  ∧ energy_breakdown_seq (foldl (on_smart_meter_data parseFloat) st rows).2
    = energy_breakdown_seq st.2.
Proof.
  revert st. induction rows as [|row rows IH]; intros st; [done|]. simpl.
  destruct (IH (on_smart_meter_data parseFloat st row)) as (-> & -> & ->).
  unfold on_smart_meter_data. destruct (row !! "cpe"); [|done].
  by destruct (_ && _).
Qed.

Lemma load_breakdown_frame rows st :
  metadata (foldl (on_breakdown_data parseFloat) st rows).2 = metadata st.2
  ∧ smart_meter_data (foldl (on_breakdown_data parseFloat) st rows).2
    = smart_meter_data st.2.
Proof.
  revert st. induction rows as [|row rows IH]; intros st; [done|]. simpl.
  destruct (IH (on_breakdown_data parseFloat st row)) as (-> & ->).
  unfold on_breakdown_data. by destruct (_ <? _)%Z.
Qed.

Lemma kept_meter_cons row rows :
  kept_meter parseFloat (row :: rows)
  = match meter_record parseFloat row with
    | Some r => r :: kept_meter parseFloat rows
    | None => kept_meter parseFloat rows
    end.
Proof. unfold kept_meter. simpl. by destruct (meter_record parseFloat row). Qed.

(** The meter loader, from any count: what it adds is the first
    [maxRecords - count] rows that pass the test. *)
Lemma foldl_on_smart_meter_data rows c s :
  let st := foldl (on_smart_meter_data parseFloat) (c, s) rows in
  let added :=
    take (Z.to_nat (smart_meter_maxRecords - c)) (kept_meter parseFloat rows) in
  SmartMeter.content <$> smart_meter_data st.2
  = (SmartMeter.content <$> smart_meter_data s) ++ added
  ∧ st.1 = (c + Z.of_nat (length added))%Z.
Proof.
  revert c s. induction rows as [|row rows IH]; intros c s; cbv zeta.
  - simpl. rewrite take_nil, app_nil_r. split; [done|]. simpl. lia.
  - rewrite kept_meter_cons. cbn [foldl].
    unfold on_smart_meter_data at 2 4. unfold meter_record.
    simpl. destruct (row !! "cpe") as [k|]; simpl; [|apply IH].
    destruct (JS.truthy k); simpl; rewrite ?andb_false_r, ?andb_true_r;
      [|apply IH].
    destruct (Z.ltb_spec c smart_meter_maxRecords) as [Hlt|Hge].
    + destruct (IH (c + 1)%Z
                  (insert_smart_meter k (row !! "timestamp")
                     (parseFloat_val parseFloat (row !! "active_energy")) s))
        as [-> ->].
      replace (Z.to_nat (smart_meter_maxRecords - c))
        with (S (Z.to_nat (smart_meter_maxRecords - (c + 1)))) by lia.
      simpl. rewrite fmap_app, <- app_assoc. split; [done|]. lia.
    + destruct (IH c s) as [-> ->].
      replace (Z.to_nat (smart_meter_maxRecords - c)) with O by lia.
      rewrite !take_0. split; [done|]. simpl. lia.
Qed.

Lemma foldl_on_breakdown_data rows c s :
  let st := foldl (on_breakdown_data parseFloat) (c, s) rows in
  let added :=
    take (Z.to_nat (breakdown_maxRecords - c))
      (breakdown_record parseFloat <$> rows) in
  Breakdown.content <$> energy_breakdown st.2
  = (Breakdown.content <$> energy_breakdown s) ++ added
  ∧ st.1 = (c + Z.of_nat (length added))%Z.
Proof.
  revert c s. induction rows as [|row rows IH]; intros c s; cbv zeta.
  - simpl. rewrite take_nil, app_nil_r. split; [done|]. simpl. lia.
  - rewrite fmap_cons. cbn [foldl].
    unfold on_breakdown_data at 2 4. cbn [fst snd].
    destruct (Z.ltb_spec c breakdown_maxRecords) as [Hlt|Hge].
    + destruct (IH (c + 1)%Z
                  (insert_breakdown (breakdown_record parseFloat row) s))
        as [-> ->].
      replace (Z.to_nat (breakdown_maxRecords - c))
        with (S (Z.to_nat (breakdown_maxRecords - (c + 1)))) by lia.
      rewrite firstn_cons. cbn [insert_breakdown energy_breakdown].
      rewrite fmap_app, <- app_assoc. split; [done|].
      cbn [length]. lia.
    + destruct (IH c s) as [-> ->].
      replace (Z.to_nat (breakdown_maxRecords - c)) with O by lia.
      rewrite !take_0. split; [done|]. simpl. lia.
Qed.

(** What a full refresh leaves in the three relations is read off the
    files alone; the store it started from only shows in the ids. *)
Lemma loadCSVData_metadata src s :
  metadata (loadCSVData parseFloat src s)
  = match metadata_csv src with
    | Some lines =>
        replace_all (kept_metadata parseFloat (parse_metadata lines)) []
    | None => []
    end.
Proof.
  unfold loadCSVData.
  assert (∀ s' : store,
    metadata (match breakdown_csv src with
              | Some rows => (load_breakdown parseFloat rows s').2
              | None => s' end) = metadata s') as ->.
  { intros s'. destruct (breakdown_csv src); [|done].
    apply (load_breakdown_frame _ (0%Z, s')). }
  assert (∀ s' : store,
    metadata (match smart_meter_csv src with
              | Some rows => (load_smart_meter parseFloat rows s').2
              | None => s' end) = metadata s') as ->.
  { intros s'. destruct (smart_meter_csv src); [|done].
    apply (load_smart_meter_frame _ (0%Z, s')). }
  destruct (metadata_csv src); [|done].
  unfold load_metadata. simpl. by rewrite foldl_insert_metadata.
Qed.

Lemma loadCSVData_smart_meter_data src s :
  SmartMeter.content <$> smart_meter_data (loadCSVData parseFloat src s)
  = match smart_meter_csv src with
    | Some rows =>
        take (Z.to_nat smart_meter_maxRecords) (kept_meter parseFloat rows)
    | None => []
    end.
Proof.
  unfold loadCSVData.
  assert (∀ s' : store,
    smart_meter_data (match breakdown_csv src with
              | Some rows => (load_breakdown parseFloat rows s').2
              | None => s' end) = smart_meter_data s') as ->.
  { intros s'. destruct (breakdown_csv src); [|done].
    apply (load_breakdown_frame _ (0%Z, s')). }
  destruct (smart_meter_csv src) as [rows|].
  - unfold load_smart_meter.
    rewrite (proj1 (foldl_on_smart_meter_data rows 0 _)).
    rewrite Z.sub_0_r. by destruct (metadata_csv src).
  - by destruct (metadata_csv src).
Qed.

Lemma loadCSVData_energy_breakdown src s :
  Breakdown.content <$> energy_breakdown (loadCSVData parseFloat src s)
  = match breakdown_csv src with
    | Some rows =>
        take (Z.to_nat breakdown_maxRecords)
          (breakdown_record parseFloat <$> rows)
    | None => []
    end.
Proof.
  unfold loadCSVData.
  destruct (breakdown_csv src) as [rows|].
  - unfold load_breakdown.
    rewrite (proj1 (foldl_on_breakdown_data rows 0 _)). rewrite Z.sub_0_r.
    destruct (smart_meter_csv src) as [mrows|].
    + unfold load_smart_meter.
      rewrite (proj1 (proj2 (load_smart_meter_frame mrows (0%Z, _)))).
      by destruct (metadata_csv src).
    + by destruct (metadata_csv src).
  - destruct (smart_meter_csv src) as [mrows|].
    + unfold load_smart_meter.
      rewrite (proj1 (proj2 (load_smart_meter_frame mrows (0%Z, _)))).
      by destruct (metadata_csv src).
    + by destruct (metadata_csv src).
Qed.

End Loader.

(** ** The metadata relation after a load *)

(** Whatever store the load starts from, the primary key holds after it. *)
Lemma loadCSVData_metadata_pk parseFloat src s :
  metadata_pk (loadCSVData parseFloat src s).
Proof.
  unfold metadata_pk. rewrite loadCSVData_metadata.
  destruct (metadata_csv src); [|constructor].
  apply replace_all_pk. constructor.
Qed.



(** The sample file: the row with the empty cpe is dropped, the one after
    it is stored under its trimmed key. *)
Example metadata_sample :
  Metadata.cpe <$> metadata Demo.db = ["B1"; "B2"].
Proof. vm_compute. reflexivity. Qed.

(** The first example of the specification: of the rows B1 and the one
    with the empty cpe, B1 alone is stored. *)
Example metadata_example :
  let lines := [ ["cpe"; "lat"; "lon"; "totalarea"; "name"; "fulladdress"];
                 ["B1"; "40.0"; "-73.9"; "1000"; "A"; "1 Main St"];
                 [""; "41"; "-74"; "500"; "B"; "2 Main St"] ] in
  metadata (loadCSVData Builtins.parseFloat
              {| metadata_csv := Some lines; smart_meter_csv := None;
                 breakdown_csv := None |} empty_store)
  = [ {| Metadata.cpe := "B1"; Metadata.lat := Some 40%Q;
         Metadata.lon := Some (-739 # 10)%Q;
         Metadata.totalarea := Some 1000%Q; Metadata.name := Some "A";
         Metadata.fulladdress := Some "1 Main St" |} ].
Proof. vm_compute. reflexivity. Qed.

(** ** The meter readings after a load *)



(** One row with an empty cpe in front of 10,000 good rows: all 10,000 good
    rows are stored, the last of them being row 10,001 of the file. *)
Example meter_cap_skips_blank :
  let rows := Demo.meter "" "2021-03-01T00:00:00" "5.0"
              :: replicate (Z.to_nat 9999) (Demo.meter "B1" "2021-03-01T00:00:00" "5.0")
              ++ [Demo.meter "B1" "2021-12-31T23:00:00" "7"] in
  let src := {| metadata_csv := None; smart_meter_csv := Some rows;
                breakdown_csv := None |} in
  let stored := smart_meter_data (loadCSVData Builtins.parseFloat src empty_store) in
  length rows = Z.to_nat 10001
  ∧ length stored = Z.to_nat 10000
  ∧ SmartMeter.timestamp <$> last stored = Some (Some "2021-12-31T23:00:00").
Proof. vm_compute. repeat split; reflexivity. Qed.

(** No stored reading has the empty string for its cpe. *)
Lemma meter_cpe_not_empty parseFloat src s r :
  r ∈ smart_meter_data (loadCSVData parseFloat src s) → SmartMeter.cpe r ≠ "".
Proof.
  intros Hr.
  assert (SmartMeter.content r
          ∈ SmartMeter.content <$> smart_meter_data (loadCSVData parseFloat src s))
    as Hc by by apply list_elem_of_fmap_2.
  rewrite loadCSVData_smart_meter_data in Hc.
  destruct (smart_meter_csv src) as [rows|]; [|by apply elem_of_nil in Hc].
  apply subseteq_take, list_elem_of_omap in Hc as (row & _ & Hrec).
  unfold meter_record in Hrec. destruct (row !! "cpe") as [c|]; [|done].
  simpl in Hrec. destruct (JS.truthy c) eqn:E; [|done].
  inversion Hrec; subst. by apply truthy_spec.
Qed.

(** C4 fails on the code: a meter row whose cpe is one blank is empty after
    trimming, and the loader stores it, blank and all. *)
Lemma C4_blank_cpe_is_stored :
  let row := Demo.meter " " "2021-03-01T00:00:00" "5.0" in
  let src := {| metadata_csv := None; smart_meter_csv := Some [row];
                breakdown_csv := None |} in
  JS.trim " " = ""
  ∧ smart_meter_data (loadCSVData Builtins.parseFloat src empty_store)
    = [ {| SmartMeter.id := 1; SmartMeter.cpe := " ";
           SmartMeter.timestamp := Some "2021-03-01T00:00:00";
           SmartMeter.active_energy := Some 5%Q |} ].
Proof. vm_compute. split; reflexivity. Qed.

(** ** GET /api/energy/:cpe/:period: the period and the parameters *)

(** C6.  A period that is none of monthly, daily and hourly is answered with
    status 400 and the error body, and the handler sends no statement to the
    store. *)
Theorem C6_invalid_period (strftime : string → string → option string)
  (s : store) (cpe period : string) (year month day : option string) :
  period ≠ "monthly" → period ≠ "daily" → period ≠ "hourly" →
  get_energy strftime s cpe period year month day
  = {| issued := []; reply := JsonError 400 "Invalid period" |}.
Proof.
  intros Hm Hd Hh. unfold get_energy, energy_switch.
  by rewrite !bool_decide_eq_false_2.
Qed.

Lemma C6_invalid_period_witness :
  get_energy Builtins.strftime Demo.db "B1" "weekly" (Some "2021") None None
  = {| issued := []; reply := JsonError 400 "Invalid period" |}.
Proof.
  apply (C6_invalid_period Builtins.strftime Demo.db "B1" "weekly");
    intros H; discriminate H.
Defined.

(** C8, as the handler has it.  A recognised period is never refused for a
    parameter that is missing.  With a year given: monthly filters on the
    year; daily without a month filters on January of the year, the text
    year-01; hourly without a day filters on the first of January, the text
    year-01-01.  In each case one statement goes to the store and its rows
    come back with status 200. *)
Theorem C8_missing_parameters_default
  (strftime : string → string → option string)
  (s : store) (cpe y : string) (month day : option string) :
  get_energy strftime s cpe "monthly" (Some y) month day
  = {| issued := [(MonthlySql, [Some cpe; Some y])];
       reply := Json 200
                  (bucket_query strftime "%Y" "%Y-%m" "%Y-%m"
                     [Some cpe; Some y] s) |}
  ∧ get_energy strftime s cpe "daily" (Some y) None day
    = {| issued := [(DailySql, [Some cpe; Some (y ++ "-01")%string])];
         reply := Json 200
                    (bucket_query strftime "%Y-%m" "%Y-%m-%d" "%Y-%m-%d"
                       [Some cpe; Some (y ++ "-01")%string] s) |}
  ∧ get_energy strftime s cpe "hourly" (Some y) month None
    = {| issued := [(HourlySql, [Some cpe; Some (y ++ "-01-01")%string])];
         reply := Json 200
                    (bucket_query strftime "%Y-%m-%d" "%H" "%H:00"
                       [Some cpe; Some (y ++ "-01-01")%string] s) |}.
Proof. done. Qed.

(** C8 as stated fails: a daily request with a year and no month is not
    refused, it is answered with the days of January. *)
Lemma C8_counterexample :
  get_energy Builtins.strftime Demo.db "B1" "daily" (Some "2021") None None
  = {| issued := [(DailySql, [Some "B1"; Some "2021-01"])];
       reply := Json 200 [ {| Bucket.label := Some "2021-01-15";
                              Bucket.total_energy := Some 4%Q |} ] |}.
Proof. vm_compute. reflexivity. Qed.

(** What the handler does when the year is missing as well: the text
    undefined goes into the filter, and a monthly request binds NULL. *)
Example energy_without_year :
  issued (get_energy Builtins.strftime Demo.db "B1" "daily" None None None)
  = [(DailySql, [Some "B1"; Some "undefined-01"])]
  ∧ issued (get_energy Builtins.strftime Demo.db "B1" "hourly" None None None)
    = [(HourlySql, [Some "B1"; Some "undefined-01-01"])]
  ∧ get_energy Builtins.strftime Demo.db "B1" "monthly" None None None
    = {| issued := [(MonthlySql, [Some "B1"; None])]; reply := Json 200 [] |}.
Proof. vm_compute. repeat split; reflexivity. Qed.

(** The second example of the specification. *)
Example monthly_sample :
  let rows := [ Demo.meter "B1" "2021-03-01T00:00:00" "5.0";
                Demo.meter "B1" "2021-03-02T00:00:00" "3.0" ] in
  let db := loadCSVData Builtins.parseFloat
              {| metadata_csv := None; smart_meter_csv := Some rows;
                 breakdown_csv := None |} empty_store in
  reply (get_energy Builtins.strftime db "B1" "monthly" (Some "2021") None None)
  = Json 200 [ {| Bucket.label := Some "2021-03";
                  Bucket.total_energy := Some 8%Q |} ].
Proof. vm_compute. reflexivity. Qed.

(** ** Text order and LIKE *)

Lemma string_leb_trans x y z :
  String.leb x y = true → String.leb y z = true → String.leb x z = true.
Proof.
  unfold String.leb. revert y z.
  induction x as [|a x IH]; intros [|b y] [|c z]; simpl; try done.
  unfold Ascii.compare.
  destruct (N.compare_spec (N_of_ascii a) (N_of_ascii b));
    destruct (N.compare_spec (N_of_ascii b) (N_of_ascii c));
    destruct (N.compare_spec (N_of_ascii a) (N_of_ascii c));
    try done; try lia.
  apply IH.
Qed.

Lemma text_le_total a b : SQL.text_le a b = true ∨ SQL.text_le b a = true.
Proof. destruct a, b; simpl; auto. apply String.leb_total. Qed.

Lemma text_le_trans a b c :
  SQL.text_le a b = true → SQL.text_le b c = true → SQL.text_le a c = true.
Proof. destruct a, b, c; simpl; try done. apply string_leb_trans. Qed.

Lemma list_ascii_of_string_app (p q : string) :
  list_ascii_of_string (p ++ q)%string
  = list_ascii_of_string p ++ list_ascii_of_string q.
Proof. induction p as [|c p IH]; simpl; [done|]. by rewrite IH. Qed.

(** A pattern that is a lone [%] matches every text. *)
Lemma like_chars_any s : SQL.like_chars ["%"%char] s = true.
Proof.
  simpl. induction s as [|d s IH]; [done|].
  destruct s; simpl in *; by rewrite ?IH, ?orb_true_r.
Qed.

(** Turns the boolean tests on character codes in the context into
    arithmetic and closes the goal. *)
Ltac code_bounds :=
  repeat match goal with
         | H : (_ =? _)%N = false |- _ => apply N.eqb_neq in H
         | H : (_ && _)%bool = false |- _ => apply andb_false_iff in H as [H|H]
         | H : (_ <=? _)%N = false |- _ => apply N.leb_gt in H
         end; lia.

(** A plain character matches itself alone. *)
Lemma plain_char_match c d :
  plain_char c = true →
  c ≠ "%"%char
  ∧ (bool_decide (c = "_"%char) || SQL.same_nocase c d = true ↔ c = d).
Proof.
  unfold plain_char. intros Hp%negb_true_iff.
  repeat (apply orb_false_iff in Hp as [Hp ?]).
  assert (c ≠ "%"%char) by (intros ->; done).
  assert (c ≠ "_"%char) by (intros ->; done).
  split; [done|]. rewrite bool_decide_eq_false_2 by done. simpl.
  unfold SQL.same_nocase. rewrite bool_decide_eq_true.
  assert (SQL.lower c = c) as ->.
  { unfold SQL.lower. by destruct ((65 <=? _) && _)%N. }
  split; [|intros ->].
  - unfold SQL.lower. destruct ((65 <=? N_of_ascii d) && _)%N eqn:E; [|done].
    intros ->. exfalso.
    apply andb_true_iff in E as [?%N.leb_le ?%N.leb_le].
    rewrite N_ascii_embedding in * by lia.
    code_bounds.
  - unfold SQL.lower. destruct ((65 <=? N_of_ascii d) && _)%N eqn:E; [|done].
    exfalso.
    apply andb_true_iff in E as [?%N.leb_le ?%N.leb_le].
    code_bounds.
Qed.

(** For a plain text [p], [t LIKE p%] says that [t] begins with [p]. *)
Lemma like_plain_prefix (p t : string) :
  plain p = true →
  SQL.like (p ++ "%")%string t = String.prefix p t.
Proof.
  unfold SQL.like, plain. rewrite list_ascii_of_string_app.
  revert t. induction p as [|c p IH]; intros t Hp.
  - simpl list_ascii_of_string. rewrite like_chars_any. by destruct t.
  - simpl in Hp. apply andb_true_iff in Hp as [Hc Hp].
    destruct (plain_char_match c c Hc) as [Hne _].
    simpl. rewrite bool_decide_eq_false_2 by done.
    destruct t as [|d t]; simpl; [done|].
    destruct (plain_char_match c d Hc) as [_ Hcd].
    destruct (ascii_dec c d) as [->|Hn].
    + rewrite (proj2 Hcd eq_refl). simpl. by apply IH.
    + destruct (bool_decide (c = "_"%char) || SQL.same_nocase c d) eqn:E;
        [|done].
      exfalso. apply Hn. by apply Hcd.
Qed.

(** ** GET /api/energy-breakdown *)

Lemma get_energy_breakdown_rows s timestamp :
  get_energy_breakdown s timestamp
  = Json 200
      (take 24 (SQL.order_by breakdown_order
                  (filter (λ r, selected timestamp r) (energy_breakdown s)))).
Proof.
  unfold get_energy_breakdown, breakdown_query, respond, SQL.limit, selected.
  do 3 f_equal. destruct timestamp as [p|]; simpl.
  - destruct (JS.truthy p); [done|]. by rewrite filter_all_of.
  - by rewrite filter_all_of.
Qed.

(** C7, as the statement has it.  The answer has status 200 and at most 24
    rows; they are the head of the selected rows put in ascending order of
    timestamp (NULL first), so nothing left out comes before a row
    returned, and rows are left out only when 24 are returned.  With a
    timestamp parameter [p] the selected rows are those whose timestamp is
    LIKE [p%]: [%] and [_] in [p] are wildcards and ASCII letters match in
    either case.  When [p] has no [%], no [_] and no ASCII letter, these are
    the rows whose timestamp begins with [p].  Without a parameter (or with
    an empty one) every row is selected. *)
Theorem C7_breakdown_first_24 (s : store) (timestamp : option string) :
  ∃ rows rest,
    get_energy_breakdown s timestamp = Json 200 rows
    ∧ (length rows ≤ 24)%nat
    ∧ (rest ≠ [] → length rows = 24%nat)
    ∧ rows ++ rest ≡ₚ filter (λ r, selected timestamp r) (energy_breakdown s)
    ∧ StronglySorted
        (λ a b, SQL.text_le (Breakdown.timestamp a) (Breakdown.timestamp b) = true)
        (rows ++ rest)
    ∧ (∀ p r, timestamp = Some p → p ≠ "" → r ∈ rows →
         ∃ t, Breakdown.timestamp r = Some t
              ∧ SQL.like (p ++ "%")%string t = true
              ∧ (plain p = true → String.prefix p t = true))
    ∧ (∀ p r, timestamp = Some p → p ≠ "" → plain p = true →
         (selected timestamp r = true ↔
          ∃ t, Breakdown.timestamp r = Some t ∧ String.prefix p t = true))
    ∧ (timestamp = None ∨ timestamp = Some "" →
         rows ++ rest ≡ₚ energy_breakdown s).
Proof.
  set (sorted := SQL.order_by breakdown_order
                   (filter (λ r, selected timestamp r) (energy_breakdown s))).
  assert (∀ p r, timestamp = Some p → p ≠ "" →
            selected timestamp r = true ↔
            ∃ t, Breakdown.timestamp r = Some t
                 ∧ SQL.like (p ++ "%")%string t = true) as Hsel.
  { intros p r -> Hp%truthy_spec. unfold selected. rewrite Hp.
    destruct (Breakdown.timestamp r) as [t|]; simpl.
    - split; [by exists t|]. by intros (? & [= <-] & ?).
    - split; [done|]. by intros (? & ? & _). }
  exists (take 24 sorted), (drop 24 sorted).
  split; [apply get_energy_breakdown_rows|].
  split; [rewrite length_take; lia|].
  split.
  { intros Hrest. rewrite length_take.
    destruct (decide (length sorted ≤ 24)%nat) as [Hle|]; [|lia].
    by rewrite drop_ge in Hrest. }
  rewrite take_drop.
  split; [apply order_by_Permutation|].
  split.
  { apply (order_by_StronglySorted breakdown_order).
    - intros x y. apply text_le_total.
    - intros x y z. apply text_le_trans. }
  split.
  { intros p r Hts Hp Hr.
    assert (selected timestamp r = true) as Hs.
    { apply subseteq_take, order_by_elem_of, list_elem_of_filter in Hr as [Hr _].
      by apply Is_true_true. }
    apply (Hsel p r Hts Hp) in Hs as (t & Ht & Hl). exists t.
    split; [done|]. split; [done|]. intros Hpl.
    by rewrite <- like_plain_prefix. }
  split.
  { intros p r Hts Hp Hpl. rewrite (Hsel p r Hts Hp).
    split; intros (t & Ht & H); exists t; split; try done.
    - by rewrite <- like_plain_prefix.
    - by rewrite like_plain_prefix. }
  intros Hnone. unfold sorted. rewrite order_by_Permutation.
  assert (∀ r, selected timestamp r = true) as Hall
    by (by destruct Hnone as [-> | ->]).
  rewrite filter_all_of; [done|]. intros r _. by rewrite Hall.
Qed.

(** C7 as stated fails: the parameter _021-01-02 selects a row whose
    timestamp starts with 2021-01-02, not with the parameter. *)
Lemma C7_counterexample :
  Breakdown.timestamp
    <$> rows_of (get_energy_breakdown Demo.db (Some "_021-01-02"))
  = [Some "2021-01-02 00:00:00"]
  ∧ String.prefix "_021-01-02" "2021-01-02 00:00:00" = false.
Proof. vm_compute. split; reflexivity. Qed.

(** The sample relation by date, and as a whole. *)
Example breakdown_sample :
  Breakdown.timestamp <$> rows_of (get_energy_breakdown Demo.db (Some "2021-01-01"))
  = [Some "2021-01-01 00:00:00"; Some "2021-01-01 01:00:00"]
  ∧ Breakdown.timestamp <$> rows_of (get_energy_breakdown Demo.db None)
    = [Some "2021-01-01 00:00:00"; Some "2021-01-01 01:00:00";
       Some "2021-01-02 00:00:00"].
Proof. vm_compute. split; reflexivity. Qed.

(** ** The join and the groups of buildings *)

Lemma left_join_cons m ms rs :
  left_join (m :: ms) rs = joined m rs ++ left_join ms rs.
Proof. done. Qed.

Lemma joined_fst m rs j : j ∈ joined m rs → j.1 = m.
Proof.
  unfold joined. destruct (filter _ rs) as [|r l].
  - by intros ->%list_elem_of_singleton.
  - by intros (r' & -> & _)%list_elem_of_fmap.
Qed.

Lemma joined_not_nil m rs : joined m rs ≠ [].
Proof. unfold joined. by destruct (filter _ rs). Qed.

Lemma joined_snd m rs j :
  j ∈ joined m rs →
  match j.2 with
  | Some r => r ∈ rs ∧ Metadata.cpe m = SmartMeter.cpe r
  | None => ∀ r, r ∈ rs → Metadata.cpe m ≠ SmartMeter.cpe r
  end.
Proof.
  unfold joined.
  destruct (filter (λ r, Metadata.cpe m = SmartMeter.cpe r) rs) as [|r0 l] eqn:E.
  - intros ->%list_elem_of_singleton. simpl. intros r Hr Hc.
    assert (r ∈ filter (λ r, Metadata.cpe m = SmartMeter.cpe r) rs) as Hin
      by by apply list_elem_of_filter.
    rewrite E in Hin. by apply elem_of_nil in Hin.
  - intros (r & -> & Hr)%list_elem_of_fmap. simpl.
    rewrite <- E in Hr. apply list_elem_of_filter in Hr. tauto.
Qed.

(** The energies the join carries for one building are those of its
    readings. *)
Lemma joined_energy m rs :
  (SQL.coalesce (SQL.sum (smd_active_energy <$> joined m rs)) 0
   == SQL.total
        ((λ r, energy (SmartMeter.active_energy r))
           <$> filter (λ r, SmartMeter.cpe r = Metadata.cpe m) rs))%Q.
Proof.
  rewrite coalesce_sum. unfold joined.
  rewrite (list_filter_iff (λ r, SmartMeter.cpe r = Metadata.cpe m)
             (λ r, Metadata.cpe m = SmartMeter.cpe r)) by done.
  destruct (filter _ rs) as [|r0 l]; [simpl; by rewrite Qplus_0_l|].
  rewrite <- !list_fmap_compose. reflexivity.
Qed.

Lemma left_join_elem_of ms rs j :
  j ∈ left_join ms rs ↔ j.1 ∈ ms ∧ j ∈ joined j.1 rs.
Proof.
  unfold left_join. rewrite list_elem_of_bind. split.
  - intros (m & Hj & Hm). by rewrite (joined_fst _ _ _ Hj).
  - intros [Hm Hj]. by exists j.1.
Qed.

Lemma left_join_fst ms rs m : m ∈ fst <$> left_join ms rs ↔ m ∈ ms.
Proof.
  rewrite list_elem_of_fmap. split.
  - intros (j & -> & Hj%left_join_elem_of). tauto.
  - intros Hm. destruct (joined m rs) as [|j l] eqn:E;
      [by apply joined_not_nil in E|].
    assert (j ∈ joined m rs) as Hj by (rewrite E; left).
    pose proof (joined_fst _ _ _ Hj) as Hfst.
    exists j. split; [done|]. apply left_join_elem_of. by rewrite Hfst.
Qed.

Lemma same_real_refl v : SQL.same_real v v = true.
Proof. destruct v; simpl; [apply Qeq_bool_refl|done]. Qed.

Lemma same_real_trans a b c :
  SQL.same_real a b = true → SQL.same_real b c = true → SQL.same_real a c = true.
Proof. destruct a, b, c; simpl; try done. apply Qeq_bool_trans. Qed.

Lemma same_text_refl v : SQL.same_text v v = true.
Proof. by apply bool_decide_eq_true. Qed.

Lemma same_text_trans a b c :
  SQL.same_text a b = true → SQL.same_text b c = true → SQL.same_text a c = true.
Proof. unfold SQL.same_text. rewrite !bool_decide_eq_true. congruence. Qed.

Lemma same_building_refl m : same_building m m = true.
Proof.
  unfold same_building.
  by rewrite bool_decide_eq_true_2, !same_text_refl, !same_real_refl.
Qed.

Lemma same_building_trans a b c :
  same_building a b = true → same_building b c = true →
  same_building a c = true.
Proof.
  unfold same_building. rewrite !andb_true_iff, !bool_decide_eq_true.
  intros [[[[[? ?] ?] ?] ?] ?] [[[[[? ?] ?] ?] ?] ?].
  repeat split;
    eauto using same_text_trans, same_real_trans, eq_trans.
Qed.

Lemma same_building_cpe a b :
  same_building a b = true → Metadata.cpe a = Metadata.cpe b.
Proof.
  unfold same_building. rewrite !andb_true_iff, bool_decide_eq_true. tauto.
Qed.

Lemma same_building_energy_refl m : same_building_energy m m = true.
Proof.
  unfold same_building_energy.
  by rewrite bool_decide_eq_true_2, !same_text_refl, !same_real_refl.
Qed.

Lemma same_building_energy_cpe a b :
  same_building_energy a b = true → Metadata.cpe a = Metadata.cpe b.
Proof.
  unfold same_building_energy. rewrite !andb_true_iff, bool_decide_eq_true.
  tauto.
Qed.

(** Under the primary key a row of the relation is known by its cpe. *)
Lemma pk_inj (ms : list Metadata.row) a b :
  NoDup (Metadata.cpe <$> ms) → a ∈ ms → b ∈ ms →
  Metadata.cpe a = Metadata.cpe b → a = b.
Proof.
  induction ms as [|m ms IH]; [by intros _ ?%elem_of_nil|].
  rewrite fmap_cons. intros [Hm Hnd]%NoDup_cons.
  intros [->|Ha]%elem_of_cons [->|Hb]%elem_of_cons Hab; auto.
  - exfalso. apply Hm. rewrite Hab. by apply list_elem_of_fmap_2.
  - exfalso. apply Hm. rewrite <- Hab. by apply list_elem_of_fmap_2.
Qed.

(** Under the primary key the group of a building in the join is what the
    join made for it. *)
Lemma group_of_building ms rs m :
  NoDup (Metadata.cpe <$> ms) → m ∈ ms →
  filter (λ j, same_building m j.1) (left_join ms rs) = joined m rs.
Proof.
  intros Hpk Hm.
  assert (∀ m', m' ∈ ms → same_building m m' = true → m' = m) as Hsame.
  { intros m' Hm' E%same_building_cpe. by apply (pk_inj ms). }
  assert (NoDup ms) as Hnd by by apply NoDup_fmap_1 in Hpk.
  clear Hpk. induction ms as [|m0 ms IH]; [by apply elem_of_nil in Hm|].
  apply NoDup_cons in Hnd as [Hm0 Hnd].
  rewrite left_join_cons, filter_app.
  apply elem_of_cons in Hm as [->|Hm].
  - rewrite filter_all_of.
    + rewrite filter_nothing; [by rewrite app_nil_r|].
      intros j [Hj _]%left_join_elem_of Hs%Is_true_true.
      apply Hm0. rewrite <- (Hsame j.1); [done|by right|done].
    + intros j ->%joined_fst. apply Is_true_true, same_building_refl.
  - rewrite filter_nothing.
    + apply IH; [done| |done]. intros m' Hm'. apply Hsame. by right.
    + intros j ->%joined_fst Hs%Is_true_true.
      apply Hm0. rewrite (Hsame m0); [done|by left|done].
Qed.

Lemma filter_key_singleton {A B} `{EqDecision B} (f : A → B) (l : list A) x :
  NoDup (f <$> l) → x ∈ l → filter (λ y, f y = f x) l = [x].
Proof.
  induction l as [|y l IH]; [by intros _ ?%elem_of_nil|].
  rewrite fmap_cons. intros [Hy Hnd]%NoDup_cons [->|Hx]%elem_of_cons.
  - rewrite filter_cons_True by done. f_equal. apply filter_nothing.
    intros z Hz E. apply Hy. rewrite <- E. by apply list_elem_of_fmap_2.
  - rewrite filter_cons_False; [by apply IH|].
    intros E. apply Hy. rewrite E. by apply list_elem_of_fmap_2.
Qed.

Lemma StronglySorted_weaken {A} (R R' : A → A → Prop) l :
  (∀ x y, R x y → R' x y) → StronglySorted R l → StronglySorted R' l.
Proof.
  intros HR. induction 1 as [|x l _ IH Hx]; constructor; [done|].
  eapply Forall_impl; [done|]. auto.
Qed.

Lemma buildings_order_total a b :
  buildings_order a b = true ∨ buildings_order b a = true.
Proof.
  unfold buildings_order. rewrite !Qle_bool_iff.
  destruct (Qlt_le_dec (Building.annual_energy a) (Building.annual_energy b));
    auto using Qlt_le_weak.
Qed.

Lemma buildings_order_trans a b c :
  buildings_order a b = true → buildings_order b c = true →
  buildings_order a c = true.
Proof.
  unfold buildings_order. rewrite !Qle_bool_iff. intros ??.
  by eapply Qle_trans.
Qed.

(** ** GET /api/buildings *)

(** The groups of the join are the buildings of the relation, each once. *)
Lemma building_keys ms rs :
  NoDup (Metadata.cpe <$> ms) →
  let keys := SQL.group_keys same_building (fst <$> left_join ms rs) in
  (∀ k, k ∈ keys ↔ k ∈ ms) ∧ NoDup (Metadata.cpe <$> keys).
Proof.
  intros Hpk keys.
  assert (∀ k, k ∈ keys → k ∈ ms) as Hsub.
  { intros k Hk%group_keys_elem_of. by apply left_join_fst in Hk. }
  split.
  - intros k. split; [apply Hsub|]. intros Hk.
    destruct (group_keys_cover same_building same_building_refl
                same_building_trans k
                (fst <$> left_join ms rs)) as (k' & Hk' & Hs).
    { by apply left_join_fst. }
    fold keys in Hk'.
    by rewrite <- (pk_inj ms k' k Hpk (Hsub _ Hk') Hk (same_building_cpe _ _ Hs)).
  - apply NoDup_fmap_2_strong.
    + intros a b Ha Hb. apply (pk_inj ms); auto.
    + apply group_keys_NoDup, same_building_refl.
Qed.

(** C1.  With the primary key of metadata in place, the answer of
    GET /api/buildings has, for every building of the relation, exactly one
    entry with its cpe; the entry carries the building's columns, its
    annual_energy is the sum of the building's readings, and it is 0 when the
    building has no reading.  Every entry is one of a building, and the
    entries are in descending order of annual_energy. *)
Theorem C1_buildings_outer_join (s : store) :
  metadata_pk s →
  ∃ rows,
    get_buildings s = Json 200 rows
    ∧ (∀ m, m ∈ metadata s →
         ∃ b, filter (λ b, Building.cpe b = Metadata.cpe m) rows = [b]
              ∧ Building.lat b = Metadata.lat m
              ∧ Building.lon b = Metadata.lon m
              ∧ Building.totalarea b = Metadata.totalarea m
              ∧ Building.name b = Metadata.name m
              ∧ Building.fulladdress b = Metadata.fulladdress m
              ∧ (Building.annual_energy b
                 == SQL.total ((λ r, energy (SmartMeter.active_energy r))
                                 <$> readings_of (Metadata.cpe m) s))%Q
              ∧ (readings_of (Metadata.cpe m) s = [] →
                 Building.annual_energy b = 0%Q))
    ∧ (∀ b, b ∈ rows →
         ∃ m, m ∈ metadata s ∧ Building.cpe b = Metadata.cpe m)
    ∧ StronglySorted
        (λ a b, (Building.annual_energy b <= Building.annual_energy a)%Q) rows.
Proof.
  intros Hpk. unfold metadata_pk in Hpk.
  set (ms := metadata s) in *. set (rs := smart_meter_data s).
  set (entry := λ k : Metadata.row,
         buildings_row (k, filter (λ j, same_building k j.1) (left_join ms rs))).
  set (keys := SQL.group_keys same_building (fst <$> left_join ms rs)).
  destruct (building_keys ms rs Hpk) as [Hkeys Hnd]. fold keys in Hkeys, Hnd.
  assert (buildings_row <$> SQL.group_by same_building fst (left_join ms rs)
          = entry <$> keys) as Hentries.
  { unfold SQL.group_by. by rewrite <- list_fmap_compose. }
  exists (SQL.order_by buildings_order (entry <$> keys)).
  split.
  { unfold get_buildings, buildings_query, respond. do 2 f_equal.
    apply Hentries. }
  split; [|split].
  - intros m Hm. exists (entry m).
    split.
    { apply Permutation_singleton_r.
      rewrite order_by_Permutation, filter_fmap_comm.
      by rewrite (filter_key_singleton Metadata.cpe keys m Hnd (proj2 (Hkeys m) Hm)). }
    unfold entry. rewrite (group_of_building ms rs m Hpk Hm).
    repeat (split; [done|]). split.
    + apply joined_energy.
    + unfold readings_of. fold rs. intros Hnone. simpl. unfold joined.
      rewrite (list_filter_iff (λ r, Metadata.cpe m = SmartMeter.cpe r)
                 (λ r, SmartMeter.cpe r = Metadata.cpe m)) by done.
      by rewrite Hnone.
  - intros b (k & -> & Hk)%order_by_elem_of%list_elem_of_fmap.
    exists k. split; [by apply Hkeys|done].
  - eapply StronglySorted_weaken;
      [|apply (order_by_StronglySorted buildings_order);
        [apply buildings_order_total|apply buildings_order_trans]].
    intros a b. unfold buildings_order. by rewrite Qle_bool_iff.
Qed.

Lemma C1_buildings_outer_join_witness :
  metadata_pk Demo.db
  ∧ ∃ rows, get_buildings Demo.db = Json 200 rows
            ∧ Building.cpe <$> rows = ["B1"; "B2"].
Proof.
  assert (metadata_pk Demo.db) as Hpk.
  { apply (bool_decide_unpack _). vm_compute. exact I. }
  split; [exact Hpk|].
  destruct (C1_buildings_outer_join Demo.db Hpk) as (rows & Hrows & _).
  exists rows. split; [exact Hrows|].
  vm_compute in Hrows. injection Hrows as <-. reflexivity.
Defined.

(** The sample store: B2 has no reading and is listed last with 0. *)
Example buildings_sample :
  (λ b, (Building.cpe b, Building.annual_energy b))
    <$> rows_of (get_buildings Demo.db)
  = [("B1", (31 # 2)%Q); ("B2", 0%Q)].
Proof. vm_compute. reflexivity. Qed.

(** ** GET /api/buildings-energy *)

(** C10.  A building of the relation none of whose readings the store dates
    to the requested year (2021 when no year is given) has no entry in the
    answer of GET /api/buildings-energy: the filter on [smd.timestamp] drops
    the row the left join kept for it.  GET /api/buildings lists the same
    building. *)
Theorem C10_buildings_energy_inner (strftime : string → string → option string)
  (s : store) (year : option string) (m : Metadata.row) :
  m ∈ metadata s →
  (∀ r, r ∈ smart_meter_data s →
        ¬ reading_in_year strftime (Metadata.cpe m) (JS.or_else year "2021") r) →
  ∃ rows,
    get_buildings_energy strftime s year = Json 200 rows
    ∧ (∀ b, b ∈ rows → BuildingEnergy.cpe b ≠ Metadata.cpe m)
    ∧ ∃ b, b ∈ rows_of (get_buildings s) ∧ Building.cpe b = Metadata.cpe m.
Proof.
  intros Hm Hnone. eexists. split; [reflexivity|]. split.
  - intros b Hb%order_by_elem_of Hcpe.
    apply list_elem_of_fmap in Hb as (g & -> & Hg).
    apply group_by_elem_of in Hg as [Hkey _].
    apply list_elem_of_fmap in Hkey as (j & Hj1 & Hj).
    apply list_elem_of_filter in Hj as [Hy%Is_true_true Hj].
    apply left_join_elem_of in Hj as [_ Hj%joined_snd].
    unfold smd_timestamp in Hy. destruct j as [k [r|]]; simpl in *; [|done].
    destruct Hj as [Hr Hk]. apply (Hnone r Hr). split; [congruence|].
    unfold SQL.text_eq in Hy.
    destruct (strftime_val strftime "%Y" (SmartMeter.timestamp r)); [|done].
    apply bool_decide_eq_true in Hy. by rewrite Hy.
  - destruct (group_keys_cover same_building same_building_refl
                same_building_trans m
                (fst <$> left_join (metadata s) (smart_meter_data s)))
      as (k & Hk & Hs); [by apply left_join_fst|].
    exists (buildings_row
              (k, filter (λ j, same_building k j.1)
                    (left_join (metadata s) (smart_meter_data s)))).
    split; [|by apply same_building_cpe].
    unfold get_buildings, buildings_query, respond, rows_of.
    apply order_by_elem_of. unfold SQL.group_by.
    rewrite <- list_fmap_compose. by apply list_elem_of_fmap_2'  with k.
Qed.

Lemma C10_buildings_energy_inner_witness :
  ∃ m, m ∈ metadata Demo.db ∧ Metadata.cpe m = "B2"
       ∧ BuildingEnergy.cpe
           <$> rows_of (get_buildings_energy Builtins.strftime Demo.db None)
         = ["B1"]
       ∧ ∃ rows, get_buildings_energy Builtins.strftime Demo.db None
                 = Json 200 rows
                 ∧ ∀ b, b ∈ rows → BuildingEnergy.cpe b ≠ "B2".
Proof.
  set (m := {| Metadata.cpe := "B2"; Metadata.lat := Some (85 # 2)%Q;
               Metadata.lon := Some (-75 # 1)%Q; Metadata.totalarea := None;
               Metadata.name := Some "C";
               Metadata.fulladdress := Some "3 Main St" |}).
  assert (m ∈ metadata Demo.db) as Hm.
  { vm_compute. right. left. }
  assert (∀ r, r ∈ smart_meter_data Demo.db →
            ¬ reading_in_year Builtins.strftime (Metadata.cpe m)
                (JS.or_else None "2021") r) as Hnone.
  { apply Forall_forall. vm_compute. repeat constructor; intros [H _]; discriminate H. }
  exists m. split; [exact Hm|]. split; [reflexivity|].
  split; [vm_compute; reflexivity|].
  destruct (C10_buildings_energy_inner Builtins.strftime Demo.db None m Hm Hnone)
    as (rows & Hrows & Habsent & _).
  exists rows. split; [exact Hrows|exact Habsent].
Defined.

(** ** Totals over groups *)

Lemma total_ext {K} (g h : K → Q) ks :
  (∀ k, g k == h k)%Q → (SQL.total (g <$> ks) == SQL.total (h <$> ks))%Q.
Proof.
  intros E. induction ks as [|k ks IH]; simpl; [reflexivity|].
  by rewrite IH, (E k).
Qed.

Lemma total_plus {K} (g h : K → Q) ks :
  (SQL.total ((λ k, g k + h k) <$> ks)
   == SQL.total (g <$> ks) + SQL.total (h <$> ks))%Q.
Proof.
  induction ks as [|k ks IH]; [simpl; by rewrite Qplus_0_l|].
  rewrite !fmap_cons, !total_cons, IH. ring.
Qed.

Section Indicator.
Context {K : Type} (same : K → K → bool).
Hypothesis same_spec : ∀ a b, same a b = true ↔ a = b.

Lemma total_indicator_out (kx : K) (v : Q) ks :
  kx ∉ ks →
  (SQL.total ((λ k, if same k kx then v else 0) <$> ks) == 0)%Q.
Proof.
  induction ks as [|k ks IH]; simpl; [reflexivity|].
  intros [Hk Hks]%not_elem_of_cons.
  destruct (same k kx) eqn:E; [by apply same_spec in E|].
  by rewrite IH, Qplus_0_l.
Qed.

Lemma total_indicator_in (kx : K) (v : Q) ks :
  NoDup ks → kx ∈ ks →
  (SQL.total ((λ k, if same k kx then v else 0) <$> ks) == v)%Q.
Proof.
  induction ks as [|k ks IH]; [by intros _ ?%elem_of_nil|]. simpl.
  intros [Hk Hnd]%NoDup_cons Hin.
  destruct (same k kx) eqn:E.
  - apply same_spec in E as ->.
    by rewrite total_indicator_out, Qplus_0_r.
  - apply elem_of_cons in Hin as [->|Hin].
    + rewrite (proj2 (same_spec k k) eq_refl) in E. done.
    + by rewrite IH, Qplus_0_l.
Qed.

(** A sum taken group by group is the sum over all rows, when the groups
    are the rows of each key of a duplicate-free list of keys that covers
    the rows. *)
Lemma total_by_group {A} (key : A → K) (f : A → Q) ks (l : list A) :
  NoDup ks → (∀ x, x ∈ l → key x ∈ ks) →
  (SQL.total ((λ k, SQL.total (f <$> filter (λ x, same k (key x)) l)) <$> ks)
   == SQL.total (f <$> l))%Q.
Proof.
  intros Hnd. induction l as [|x l IH]; intros Hcover.
  - rewrite (total_ext _ (λ k, if same k k then 0 else 0)%Q).
    + clear. induction ks as [|k ks IH]; simpl; [reflexivity|].
      rewrite IH. by destruct (same k k).
    + intros k. simpl. by destruct (same k k).
  - rewrite (total_ext _
               (λ k, (if same k (key x) then f x else 0)
                     + SQL.total (f <$> filter (λ x, same k (key x)) l))%Q).
    + rewrite total_plus, total_indicator_in, IH; [done| |done|].
      * intros y Hy. apply Hcover. by right.
      * apply Hcover. by left.
    + intros k. rewrite filter_cons.
      destruct (same k (key x)); simpl; [reflexivity|by rewrite Qplus_0_l].
Qed.

End Indicator.

Lemma same_text_spec a b : SQL.same_text a b = true ↔ a = b.
Proof. apply bool_decide_eq_true. Qed.

Lemma fmap_id_on {A} (h : A → A) (l : list A) :
  (∀ x, x ∈ l → h x = x) → h <$> l = l.
Proof.
  intros H. induction l as [|x l IH]; [done|].
  rewrite fmap_cons, H by left. f_equal. apply IH. intros y Hy. apply H.
  by right.
Qed.

(** ** GET /api/energy/:cpe/monthly *)

Section Monthly.
Variable strftime : string → string → option string.
Variables (s : store) (cpe year : string).

Local Abbreviation month_of := (month_of strftime).
Local Abbreviation in_year := (readings_in_year strftime cpe year s).
Local Abbreviation bucket := (month_bucket strftime cpe year s).
Local Abbreviation months := (months_of strftime cpe year s).

Lemma monthly_where :
  filter (λ r, energy_where strftime "%Y" [Some cpe; Some year] r)
    (smart_meter_data s) = in_year.
Proof.
  apply list_filter_iff. intros r.
  unfold energy_where, reading_in_year, param. simpl.
  rewrite andb_True, bool_decide_spec.
  destruct (strftime_val strftime "%Y" (SmartMeter.timestamp r)); simpl.
  - rewrite bool_decide_spec. split; intros [? ?]; split; congruence.
  - split; [tauto|]. by intros [_ ?].
Qed.

Lemma monthly_rows :
  bucket_query strftime "%Y" "%Y-%m" "%Y-%m" [Some cpe; Some year] s
  = SQL.order_by bucket_order (bucket <$> months).
Proof.
  unfold bucket_query, SQL.group_by. rewrite monthly_where.
  by rewrite <- list_fmap_compose.
Qed.

Lemma months_NoDup : NoDup months.
Proof. apply group_keys_NoDup, same_text_refl. Qed.

Lemma months_cover r : r ∈ in_year → month_of r ∈ months.
Proof.
  intros Hr.
  destruct (group_keys_cover SQL.same_text same_text_refl same_text_trans
              (month_of r) (month_of <$> in_year)) as (k & Hk & E);
    [by apply list_elem_of_fmap_2|].
  by apply same_text_spec in E as ->.
Qed.

(** The label shown for a group is its month. *)
Lemma bucket_label k : k ∈ months → Bucket.label (bucket k) = k.
Proof.
  intros (r & -> & Hr)%group_keys_elem_of%list_elem_of_fmap.
  unfold month_bucket, bucket_row. simpl.
  destruct (filter _ in_year) as [|r0 g] eqn:E.
  - assert (r ∈ filter (λ r', SQL.same_text (month_of r) (month_of r')) in_year)
      as Hin.
    { apply list_elem_of_filter. split; [|done].
      apply Is_true_true, same_text_refl. }
    rewrite E in Hin. by apply elem_of_nil in Hin.
  - assert (r0 ∈ filter (λ r', SQL.same_text (month_of r) (month_of r')) in_year)
      as [Hs%Is_true_true%same_text_spec _]%list_elem_of_filter
      by (rewrite E; left).
    simpl. by rewrite Hs.
Qed.

Lemma bucket_energy k :
  (energy (Bucket.total_energy (bucket k))
   == SQL.total ((λ r, energy (SmartMeter.active_energy r))
                   <$> filter (λ r, SQL.same_text k (month_of r)) in_year))%Q.
Proof.
  unfold month_bucket, bucket_row, energy. simpl.
  by rewrite coalesce_sum, <- list_fmap_compose.
Qed.

Lemma monthly_total :
  (SQL.total ((λ b, energy (Bucket.total_energy b))
                <$> SQL.order_by bucket_order (bucket <$> months))
   == SQL.total ((λ r, energy (SmartMeter.active_energy r)) <$> in_year))%Q.
Proof.
  rewrite (total_Permutation _ ((λ b, energy (Bucket.total_energy b))
                                  <$> (bucket <$> months)))
    by (by rewrite order_by_Permutation).
  rewrite <- list_fmap_compose.
  rewrite (total_ext _ _ months bucket_energy).
  apply (total_by_group SQL.same_text same_text_spec).
  - apply months_NoDup.
  - apply months_cover.
Qed.


End Monthly.

Lemma C2_sample :
  let rows := [ {| Bucket.label := Some "2021-01"; Bucket.total_energy := Some 4%Q |};
                {| Bucket.label := Some "2021-03"; Bucket.total_energy := Some 8%Q |};
                {| Bucket.label := Some "2021-04"; Bucket.total_energy := Some (3 # 2)%Q |} ] in
  reply (get_energy Builtins.strftime Demo.db "B1" "monthly" (Some "2021") None None)
  = Json 200 rows
  ∧ SQL.total ((λ b, energy (Bucket.total_energy b)) <$> rows) = (27 # 2)%Q.
Proof. vm_compute. split; reflexivity. Qed.

(** ** The answers do not read the surrogate ids *)

Lemma insert_by_fmap {A B} (h : A → B) (le : A → A → bool)
  (le' : B → B → bool) x l :
  (∀ a b, le' (h a) (h b) = le a b) →
  SQL.insert_by le' (h x) (h <$> l) = h <$> SQL.insert_by le x l.
Proof.
  intros Hle. induction l as [|y l IH]; [done|].
  rewrite fmap_cons. simpl. rewrite Hle.
  destruct (le x y); [done|]. by rewrite IH.
Qed.

Lemma order_by_fmap {A B} (h : A → B) (le : A → A → bool)
  (le' : B → B → bool) l :
  (∀ a b, le' (h a) (h b) = le a b) →
  SQL.order_by le' (h <$> l) = h <$> SQL.order_by le l.
Proof.
  intros Hle. induction l as [|x l IH]; [done|].
  rewrite fmap_cons. simpl. fold (SQL.order_by le' (h <$> l)).
  fold (SQL.order_by le l). rewrite IH. by apply insert_by_fmap.
Qed.

Lemma group_by_fmap {A B K} (same : K → K → bool) (key : B → K) (h : A → B)
  (l : list A) :
  SQL.group_by same key (h <$> l)
  = (λ g : K * list A, (g.1, h <$> g.2)) <$> SQL.group_by same (key ∘ h) l.
Proof.
  unfold SQL.group_by. rewrite <- !list_fmap_compose.
  apply list_fmap_ext. intros _ k _. simpl. by rewrite filter_fmap_comm.
Qed.

Section SameContent.
Variable h : SmartMeter.row → SmartMeter.row.
Hypothesis h_cpe : ∀ r, SmartMeter.cpe (h r) = SmartMeter.cpe r.
Hypothesis h_timestamp : ∀ r, SmartMeter.timestamp (h r) = SmartMeter.timestamp r.
Hypothesis h_active_energy :
  ∀ r, SmartMeter.active_energy (h r) = SmartMeter.active_energy r.

Local Abbreviation hj := (map_reading h).

Lemma joined_fmap m rs : joined m (h <$> rs) = hj <$> joined m rs.
Proof.
  unfold joined. rewrite filter_fmap_comm.
  rewrite (list_filter_iff (λ r, Metadata.cpe m = SmartMeter.cpe (h r))
             (λ r, Metadata.cpe m = SmartMeter.cpe r))
    by (intros r; by rewrite h_cpe).
  destruct (filter _ rs) as [|r l]; [reflexivity|].
  transitivity ((λ r, (m, Some r)) <$> (h <$> (r :: l))); [reflexivity|].
  by rewrite <- !list_fmap_compose.
Qed.

Lemma left_join_fmap ms rs : left_join ms (h <$> rs) = hj <$> left_join ms rs.
Proof.
  induction ms as [|m ms IH]; [done|].
  by rewrite !left_join_cons, fmap_app, joined_fmap, IH.
Qed.

Lemma smd_active_energy_fmap (g : list (Metadata.row * option SmartMeter.row)) :
  smd_active_energy <$> (hj <$> g) = smd_active_energy <$> g.
Proof.
  rewrite <- list_fmap_compose. apply list_fmap_ext.
  intros _ [m [r|]] _; unfold smd_active_energy; simpl; [|done].
  apply h_active_energy.
Qed.

Lemma buildings_groups_fmap ms rs :
  buildings_row <$> SQL.group_by same_building fst (left_join ms (h <$> rs))
  = buildings_row <$> SQL.group_by same_building fst (left_join ms rs).
Proof.
  rewrite left_join_fmap, group_by_fmap, <- list_fmap_compose.
  apply list_fmap_ext. intros _ g _. unfold buildings_row. simpl.
  by rewrite smd_active_energy_fmap.
Qed.

Variable strftime : string → string → option string.

Lemma buildings_energy_groups_fmap year ms rs :
  buildings_energy_row
    <$> SQL.group_by same_building_energy fst
          (filter (λ j, SQL.text_eq (strftime_val strftime "%Y" (smd_timestamp j)) year)
             (left_join ms (h <$> rs)))
  = buildings_energy_row
      <$> SQL.group_by same_building_energy fst
            (filter (λ j, SQL.text_eq (strftime_val strftime "%Y" (smd_timestamp j)) year)
               (left_join ms rs)).
Proof.
  rewrite left_join_fmap, filter_fmap_comm, group_by_fmap.
  rewrite <- list_fmap_compose.
  rewrite (list_filter_iff
             (λ j, SQL.text_eq (strftime_val strftime "%Y" (smd_timestamp (hj j))) year)
             (λ j, SQL.text_eq (strftime_val strftime "%Y" (smd_timestamp j)) year)).
  - apply list_fmap_ext. intros _ g _. unfold buildings_energy_row. simpl.
    by rewrite smd_active_energy_fmap.
  - intros [m [r|]]; unfold smd_timestamp; simpl; [|done].
    by rewrite h_timestamp.
Qed.

Lemma bucket_groups_fmap scope bucket shown params rs :
  bucket_row strftime shown
    <$> SQL.group_by SQL.same_text
          (λ r, strftime_val strftime bucket (SmartMeter.timestamp r))
          (filter (λ r, energy_where strftime scope params r) (h <$> rs))
  = bucket_row strftime shown
      <$> SQL.group_by SQL.same_text
            (λ r, strftime_val strftime bucket (SmartMeter.timestamp r))
            (filter (λ r, energy_where strftime scope params r) rs).
Proof.
  rewrite filter_fmap_comm, group_by_fmap, <- list_fmap_compose.
  rewrite (list_filter_iff
             (λ r, energy_where strftime scope params (h r))
             (λ r, energy_where strftime scope params r))
    by (intros r; unfold energy_where; by rewrite h_cpe, h_timestamp).
  assert (SQL.group_by SQL.same_text
            ((λ r, strftime_val strftime bucket (SmartMeter.timestamp r)) ∘ h)
            (filter (λ r, energy_where strftime scope params r) rs)
          = SQL.group_by SQL.same_text
              (λ r, strftime_val strftime bucket (SmartMeter.timestamp r))
              (filter (λ r, energy_where strftime scope params r) rs)) as ->.
  { unfold SQL.group_by.
    rewrite (list_fmap_ext
               ((λ r, strftime_val strftime bucket (SmartMeter.timestamp r)) ∘ h)
               (λ r, strftime_val strftime bucket (SmartMeter.timestamp r)))
      by (intros _ r _; simpl; by rewrite h_timestamp).
    apply list_fmap_ext. intros _ k _. f_equal. apply list_filter_iff.
    intros r. simpl. by rewrite h_timestamp. }
  apply list_fmap_ext. intros _ g _. unfold bucket_row. simpl. f_equal.
  - destruct g.2 as [|r l]; simpl; [done|]. by rewrite h_timestamp.
  - rewrite <- list_fmap_compose. f_equal. apply list_fmap_ext.
    intros _ r _. apply h_active_energy.
Qed.

End SameContent.

(** Two stores with the same metadata and the same readings up to ids give
    the same answers on the three endpoints that read the readings. *)
Lemma same_readings_same_answers (strftime : string → string → option string)
  (s1 s2 : store) :
  metadata s1 = metadata s2 →
  SmartMeter.content <$> smart_meter_data s1
  = SmartMeter.content <$> smart_meter_data s2 →
  get_buildings s1 = get_buildings s2
  ∧ (∀ cpe period year month day,
       get_energy strftime s1 cpe period year month day
       = get_energy strftime s2 cpe period year month day)
  ∧ (∀ year,
       get_buildings_energy strftime s1 year
       = get_buildings_energy strftime s2 year).
Proof.
  intros Hm Hr. split; [|split].
  - unfold get_buildings, buildings_query. do 3 f_equal.
    pose proof (buildings_groups_fmap SmartMeter.content
                  (λ _, eq_refl) (λ _, eq_refl)) as Hg.
    rewrite <- (Hg (metadata s1) (smart_meter_data s1)).
    rewrite <- (Hg (metadata s2) (smart_meter_data s2)).
    by rewrite Hm, Hr.
  - assert (∀ scope bucket shown params,
              bucket_query strftime scope bucket shown params s1
              = bucket_query strftime scope bucket shown params s2) as Hq.
    { intros. unfold bucket_query. f_equal.
      pose proof (bucket_groups_fmap SmartMeter.content
                    (λ _, eq_refl) (λ _, eq_refl) (λ _, eq_refl) strftime
                    scope bucket shown params) as Hg.
      rewrite <- (Hg (smart_meter_data s1)), <- (Hg (smart_meter_data s2)).
      by rewrite Hr. }
    intros. unfold get_energy.
    destruct (energy_switch cpe period year month day) as [[q params]|];
      [|done].
    f_equal. unfold energy_query. destruct q; by rewrite Hq.
  - intros. unfold get_buildings_energy, buildings_energy_query. do 3 f_equal.
    pose proof (buildings_energy_groups_fmap SmartMeter.content
                  (λ _, eq_refl) (λ _, eq_refl) (λ _, eq_refl) strftime
                  (Some (JS.or_else year "2021"))) as Hg.
    rewrite <- (Hg (metadata s1) (smart_meter_data s1)).
    rewrite <- (Hg (metadata s2) (smart_meter_data s2)).
    by rewrite Hm, Hr.
Qed.

(** Two stores with the same breakdown rows up to ids give the same
    breakdown answers up to ids. *)
Lemma same_breakdown_same_answers (s1 s2 : store) timestamp :
  Breakdown.content <$> energy_breakdown s1
  = Breakdown.content <$> energy_breakdown s2 →
  Breakdown.content <$> rows_of (get_energy_breakdown s1 timestamp)
  = Breakdown.content <$> rows_of (get_energy_breakdown s2 timestamp).
Proof.
  intros Hb. rewrite !get_energy_breakdown_rows. simpl.
  assert (∀ l : list Breakdown.row,
    Breakdown.content
      <$> take 24 (SQL.order_by breakdown_order
                     (filter (λ r, selected timestamp r) l))
    = take 24 (SQL.order_by breakdown_order
                 (filter (λ r, selected timestamp r) (Breakdown.content <$> l))))
    as Hc.
  { intros l. rewrite fmap_take, filter_fmap_comm.
    by rewrite (order_by_fmap Breakdown.content breakdown_order breakdown_order). }
  by rewrite !Hc, Hb.
Qed.

(** ** Loading twice *)



(** * Further properties of the loader *)



(** X4.  Whatever the metadata file holds and whatever the store held, no
    two rows of metadata share a cpe after the load; and when several valid
    rows of the file trim to the same cpe, the row stored under it is the
    record of the last of them. *)
Theorem X4_metadata_last_row_wins (parseFloat : string → option Q)
  (src : sources) (s : store) :
  NoDup (Metadata.cpe <$> metadata (loadCSVData parseFloat src s))
  ∧ ∀ lines m,
      metadata_csv src = Some lines →
      m ∈ metadata (loadCSVData parseFloat src s) →
      ∃ before after,
        kept_metadata parseFloat (parse_metadata lines) = before ++ m :: after
        ∧ ∀ r, r ∈ after → Metadata.cpe r ≠ Metadata.cpe m.
Proof.
  rewrite loadCSVData_metadata. split.
  - destruct (metadata_csv src); [|constructor].
    apply replace_all_pk. constructor.
  - intros lines m ->. apply replace_all_last.
Qed.

(** Two rows for B1, the second with blanks around the key: one row is
    stored, with the values of the second. *)
Example metadata_replaced :
  let lines := [ ["cpe"; "name"]; ["B1"; "old"]; ["B2"; "other"];
                 [" B1 "; "new"] ] in
  (λ m, (Metadata.cpe m, Metadata.name m))
    <$> metadata (loadCSVData Builtins.parseFloat
                    {| metadata_csv := Some lines; smart_meter_csv := None;
                       breakdown_csv := None |} empty_store)
  = [("B2", Some "other"); ("B1", Some "new")].
Proof. vm_compute. reflexivity. Qed.

(** ** The ids AUTOINCREMENT hands out *)

Lemma foldr_max_snoc (ids : list Z) (x : Z) :
  foldr Z.max 0%Z (ids ++ [x]) = Z.max (foldr Z.max 0%Z ids) (Z.max x 0).
Proof.
  rewrite foldr_app. simpl. induction ids as [|i ids IH]; simpl; [lia|].
  rewrite IH. lia.
Qed.

Lemma next_id_largest seq ids : next_id seq ids = (largest_id seq ids + 1)%Z.
Proof. done. Qed.

Lemma largest_id_snoc seq ids :
  largest_id (next_id seq ids) (ids ++ [next_id seq ids])
  = (largest_id seq ids + 1)%Z.
Proof.
  rewrite next_id_largest. unfold largest_id. rewrite foldr_max_snoc.
  assert (0 ≤ foldr Z.max 0 ids)%Z; [|lia].
  induction ids; simpl; lia.
Qed.

Section Ids.
Variable parseFloat : string → option Q.

Lemma smart_meter_ids rows c s :
  let st := foldl (on_smart_meter_data parseFloat) (c, s) rows in
  let L := largest_id (smart_meter_data_seq s)
             (SmartMeter.id <$> smart_meter_data s) in
  ∃ k : nat,
    SmartMeter.id <$> smart_meter_data st.2
    = (SmartMeter.id <$> smart_meter_data s) ++ seqZ (L + 1) (Z.of_nat k)
    ∧ (k = O ∧ smart_meter_data_seq st.2 = smart_meter_data_seq s
       ∨ smart_meter_data_seq st.2 = (L + Z.of_nat k)%Z).
Proof.
  revert c s. induction rows as [|row rows IH]; intros c s; cbv zeta.
  - exists O. simpl. rewrite app_nil_r. auto.
  - cbn [foldl].
    assert (on_smart_meter_data parseFloat (c, s) row = (c, s)
            ∨ ∃ k0 ts e, on_smart_meter_data parseFloat (c, s) row
                         = ((c + 1)%Z, insert_smart_meter k0 ts e s))
      as [-> | (k0 & ts & e & ->)]; [|apply IH|].
    { unfold on_smart_meter_data. cbn [fst snd].
      destruct (row !! "cpe"); [|by left].
      destruct (_ && _); [right; eauto|by left]. }
    destruct (IH (c + 1)%Z (insert_smart_meter k0 ts e s))
      as (k & Hids & Hseq).
    exists (S k). cbn [insert_smart_meter smart_meter_data
                         smart_meter_data_seq] in Hids, Hseq.
    rewrite fmap_app, largest_id_snoc in Hids. cbn [fmap list_fmap] in Hids.
    rewrite fmap_app, largest_id_snoc in Hseq. cbn [fmap list_fmap] in Hseq.
    split.
    + rewrite Hids, <- app_assoc. f_equal.
      rewrite (seqZ_cons _ (Z.of_nat (S k))) by lia.
      rewrite next_id_largest. simpl app. do 2 f_equal; lia.
    + right. destruct Hseq as [[-> ->]| ->].
      * rewrite next_id_largest. lia.
      * lia.
Qed.

Lemma breakdown_ids rows c s :
  let st := foldl (on_breakdown_data parseFloat) (c, s) rows in
  let L := largest_id (energy_breakdown_seq s)
             (Breakdown.id <$> energy_breakdown s) in
  ∃ k : nat,
    Breakdown.id <$> energy_breakdown st.2
    = (Breakdown.id <$> energy_breakdown s) ++ seqZ (L + 1) (Z.of_nat k)
    ∧ (k = O ∧ energy_breakdown_seq st.2 = energy_breakdown_seq s
       ∨ energy_breakdown_seq st.2 = (L + Z.of_nat k)%Z).
Proof.
  revert c s. induction rows as [|row rows IH]; intros c s; cbv zeta.
  - exists O. simpl. rewrite app_nil_r. auto.
  - cbn [foldl].
    assert (on_breakdown_data parseFloat (c, s) row = (c, s)
            ∨ on_breakdown_data parseFloat (c, s) row
              = ((c + 1)%Z,
                 insert_breakdown (breakdown_record parseFloat row) s))
      as [-> | ->]; [|apply IH|].
    { unfold on_breakdown_data. cbn [fst snd].
      destruct (_ <? _)%Z; [by right|by left]. }
    destruct (IH (c + 1)%Z
                (insert_breakdown (breakdown_record parseFloat row) s))
      as (k & Hids & Hseq).
    exists (S k). cbn [insert_breakdown energy_breakdown
                         energy_breakdown_seq] in Hids, Hseq.
    rewrite fmap_app, largest_id_snoc in Hids. cbn [fmap list_fmap] in Hids.
    rewrite fmap_app, largest_id_snoc in Hseq. cbn [fmap list_fmap] in Hseq.
    split.
    + rewrite Hids, <- app_assoc. f_equal.
      rewrite (seqZ_cons _ (Z.of_nat (S k))) by lia.
      rewrite next_id_largest. simpl app. do 2 f_equal; lia.
    + right. destruct Hseq as [[-> ->]| ->].
      * rewrite next_id_largest. lia.
      * lia.
Qed.

End Ids.

Section LoadedIds.
Variable parseFloat : string → option Q.

Lemma load_breakdown_frame_seq rows st :
  smart_meter_data_seq (foldl (on_breakdown_data parseFloat) st rows).2
  = smart_meter_data_seq st.2.
Proof.
  revert st. induction rows as [|row rows IH]; intros st; [done|]. simpl.
  rewrite IH. unfold on_breakdown_data. by destruct (_ <? _)%Z.
Qed.

Lemma load_smart_meter_ids rows s0 :
  smart_meter_data s0 = [] →
  let t := (load_smart_meter parseFloat rows s0).2 in
  SmartMeter.id <$> smart_meter_data t
  = seqZ (Z.max (smart_meter_data_seq s0) 0 + 1)
      (Z.of_nat (length (smart_meter_data t)))
  ∧ ∀ r, r ∈ smart_meter_data t →
      (smart_meter_data_seq s0 < SmartMeter.id r ≤ smart_meter_data_seq t)%Z.
Proof.
  intros Hempty t.
  destruct (smart_meter_ids parseFloat rows 0 s0) as (k & Hids & Hseq).
  fold (load_smart_meter parseFloat rows s0) in Hids, Hseq. fold t in Hids, Hseq.
  rewrite Hempty in Hids, Hseq. simpl in Hids, Hseq.
  unfold largest_id in Hids, Hseq. simpl in Hids, Hseq.
  assert (length (smart_meter_data t) = k) as Hk.
  { apply (f_equal length) in Hids.
    rewrite length_fmap, length_seqZ in Hids. lia. }
  split; [by rewrite Hk|].
  intros r Hr.
  assert (SmartMeter.id r ∈ SmartMeter.id <$> smart_meter_data t) as Hid
    by by apply list_elem_of_fmap_2.
  rewrite Hids in Hid. apply elem_of_seqZ in Hid.
  destruct Hseq as [[-> _]| ->]; lia.
Qed.

Lemma load_breakdown_ids rows s0 :
  energy_breakdown s0 = [] →
  let t := (load_breakdown parseFloat rows s0).2 in
  Breakdown.id <$> energy_breakdown t
  = seqZ (Z.max (energy_breakdown_seq s0) 0 + 1)
      (Z.of_nat (length (energy_breakdown t)))
  ∧ ∀ r, r ∈ energy_breakdown t →
      (energy_breakdown_seq s0 < Breakdown.id r ≤ energy_breakdown_seq t)%Z.
Proof.
  intros Hempty t.
  destruct (breakdown_ids parseFloat rows 0 s0) as (k & Hids & Hseq).
  fold (load_breakdown parseFloat rows s0) in Hids, Hseq. fold t in Hids, Hseq.
  rewrite Hempty in Hids, Hseq. simpl in Hids, Hseq.
  unfold largest_id in Hids, Hseq. simpl in Hids, Hseq.
  assert (length (energy_breakdown t) = k) as Hk.
  { apply (f_equal length) in Hids.
    rewrite length_fmap, length_seqZ in Hids. lia. }
  split; [by rewrite Hk|].
  intros r Hr.
  assert (Breakdown.id r ∈ Breakdown.id <$> energy_breakdown t) as Hid
    by by apply list_elem_of_fmap_2.
  rewrite Hids in Hid. apply elem_of_seqZ in Hid.
  destruct Hseq as [[-> _]| ->]; lia.
Qed.


End LoadedIds.

(** ** The counts the loader logs *)

Lemma replace_all_length recs :
  (length (replace_all recs []) ≤ length recs)%nat.
Proof.
  induction recs as [|r recs IH] using rev_ind; [done|].
  rewrite replace_all_snoc. unfold insert_or_replace.
  rewrite !length_app. simpl.
  pose proof (length_filter (λ m, Metadata.cpe m ≠ Metadata.cpe r)
                (replace_all recs [])). lia.
Qed.


(** ** The header line of the metadata file *)

Lemma build_dataRow_snoc hs row v :
  build_dataRow hs (row ++ [v])
  = JS.set_prop (JS.template (hs !! length row)) v (build_dataRow hs row).
Proof.
  unfold build_dataRow. rewrite imap_app, foldl_app. simpl.
  by rewrite Nat.add_0_r.
Qed.

(** X6.  The first line of the metadata file is the header and never a
    data row; every later line becomes one object.  In that object the cell
    at position [i] is found under the trimmed header of position [i],
    provided the trimmed headers are pairwise different and the header is
    neither [__proto__] nor [undefined]; a line too short to have a cell at
    [i] has no such property. *)
Theorem X6_header_by_position (header : list string)
  (lines : list (list string)) (i : nat) (h : string) :
  NoDup (JS.trim <$> header) →
  (JS.trim <$> header) !! i = Some h →
  h ≠ "__proto__" → h ≠ "undefined" →
  parse_metadata (header :: lines)
  = build_dataRow (JS.trim <$> header) <$> lines
  ∧ ∀ row, build_dataRow (JS.trim <$> header) row !! h = row !! i.
Proof.
  intros Hnd Hi Hproto Hundef. split.
  - unfold parse_metadata. simpl.
    assert (∀ acc,
      metadata_rows
        (foldl on_metadata_data
           {| isFirstRow := false; headers := JS.trim <$> header;
              metadata_rows := acc |} lines)
      = acc ++ (build_dataRow (JS.trim <$> header) <$> lines)) as H.
    { induction lines as [|l lines IH]; intros acc; simpl.
      - by rewrite app_nil_r.
      - unfold on_metadata_data at 2. simpl. rewrite IH.
        by rewrite <- app_assoc. }
    apply (H []).
  - set (hs := JS.trim <$> header) in *. intros row.
    induction row as [|v row IH] using rev_ind.
    + unfold build_dataRow. simpl. by rewrite lookup_empty.
    + rewrite build_dataRow_snoc. unfold JS.set_prop.
      destruct (decide (i = length row)) as [->|Hne].
      * rewrite Hi. simpl. rewrite bool_decide_eq_false_2 by done.
        rewrite lookup_insert_eq. by rewrite list_lookup_middle.
      * assert (JS.template (hs !! length row) ≠ h) as Hkey.
        { destruct (hs !! length row) as [h'|] eqn:E; simpl; [|done].
          intros ->. apply Hne. by eapply NoDup_lookup. }
        assert ((row ++ [v]) !! i = row !! i) as ->.
        { destruct (decide (i < length row)%nat).
          - by rewrite lookup_app_l.
          - rewrite !lookup_ge_None_2; [done|lia|rewrite length_app; simpl; lia]. }
        case_bool_decide; [done|]. by rewrite lookup_insert_ne.
Qed.

Lemma X6_header_by_position_witness :
  build_dataRow (JS.trim <$> [" cpe"; "name "]) ["B1"; "A"] !! "name"
  = Some "A".
Proof.
  apply (X6_header_by_position [" cpe"; "name "] [["B1"; "A"]] 1 "name").
  - apply (bool_decide_unpack _). vm_compute. exact I.
  - reflexivity.
  - intros H; discriminate H.
  - intros H; discriminate H.
Defined.

(** A file with nothing but its header line, and an empty file, give no
    data row. *)
Example metadata_header_only :
  parse_metadata [["cpe"; "name"]] = [] ∧ parse_metadata [] = [].
Proof. split; reflexivity. Qed.

(** * Further properties of the energy series *)

Section Buckets.
Variable strftime : string → string → option string.
Variables (s : store) (scope bucket shown : string).
Variable params : list (option string).

Local Abbreviation chosen :=
  (filter (λ r, energy_where strftime scope params r) (smart_meter_data s)).
Local Abbreviation key_of :=
  (λ r, strftime_val strftime bucket (SmartMeter.timestamp r)).
Local Abbreviation keys := (SQL.group_keys SQL.same_text (key_of <$> chosen)).
Local Abbreviation row_of :=
  (λ k, bucket_row strftime shown
          (k, filter (λ r, SQL.same_text k (key_of r)) chosen)).

Lemma bucket_query_rows :
  bucket_query strftime scope bucket shown params s
  = SQL.order_by bucket_order (row_of <$> keys).
Proof. unfold bucket_query, SQL.group_by. by rewrite <- list_fmap_compose. Qed.

(** The totals of the buckets add up to the sum over the chosen readings. *)
Lemma bucket_query_total :
  (SQL.total ((λ b, energy (Bucket.total_energy b))
                <$> bucket_query strftime scope bucket shown params s)
   == SQL.total ((λ r, energy (SmartMeter.active_energy r)) <$> chosen))%Q.
Proof.
  rewrite bucket_query_rows.
  rewrite (total_Permutation _ ((λ b, energy (Bucket.total_energy b))
                                  <$> (row_of <$> keys)))
    by (by rewrite order_by_Permutation).
  rewrite <- list_fmap_compose.
  rewrite (total_ext _
             (λ k, SQL.total ((λ r, energy (SmartMeter.active_energy r))
                                <$> filter (λ r, SQL.same_text k (key_of r))
                                      chosen))).
  - apply (total_by_group SQL.same_text same_text_spec).
    + apply group_keys_NoDup, same_text_refl.
    + intros r Hr.
      destruct (group_keys_cover SQL.same_text same_text_refl same_text_trans
                  (key_of r) (key_of <$> chosen)) as (k & Hk & E);
        [by apply (list_elem_of_fmap_2 key_of)|].
      by apply same_text_spec in E as ->.
  - intros k. unfold bucket_row, energy. simpl.
    by rewrite coalesce_sum, <- list_fmap_compose.
Qed.

Lemma bucket_query_sorted :
  StronglySorted
    (λ a b, SQL.text_le (Bucket.label a) (Bucket.label b) = true)
    (bucket_query strftime scope bucket shown params s).
Proof.
  apply (order_by_StronglySorted bucket_order).
  - intros a b. apply text_le_total.
  - intros a b c. apply text_le_trans.
Qed.

Lemma bucket_query_nothing :
  (∀ r, r ∈ smart_meter_data s → energy_where strftime scope params r = false) →
  bucket_query strftime scope bucket shown params s = [].
Proof.
  intros Hno. unfold bucket_query. rewrite filter_nothing; [done|].
  intros r Hr Hw%Is_true_true. by rewrite Hno in Hw.
Qed.

End Buckets.

Section BucketLabels.
Variable strftime : string → string → option string.
Variables (s : store) (scope bucket : string).
Variable params : list (option string).

(** When the label shown is the grouping key itself, no two buckets share
    a label. *)
Lemma bucket_query_labels :
  NoDup (Bucket.label
           <$> bucket_query strftime scope bucket bucket params s).
Proof.
  rewrite bucket_query_rows, order_by_Permutation, <- list_fmap_compose.
  set (chosen := filter (λ r, energy_where strftime scope params r)
                   (smart_meter_data s)).
  set (key_of := λ r, strftime_val strftime bucket (SmartMeter.timestamp r)).
  rewrite fmap_id_on; [apply group_keys_NoDup, same_text_refl|].
  intros k (r & -> & Hr)%group_keys_elem_of%list_elem_of_fmap.
  unfold bucket_row. simpl.
  change (head (filter (λ r', SQL.same_text (key_of r) (key_of r')) chosen)
            ≫= key_of = key_of r).
  destruct (filter (λ r', SQL.same_text (key_of r) (key_of r')) chosen)
    as [|r0 g] eqn:E.
  - assert (r ∈ filter (λ r', SQL.same_text (key_of r) (key_of r')) chosen)
      as Hin.
    { apply list_elem_of_filter. split; [|done].
      apply Is_true_true, same_text_refl. }
    rewrite E in Hin. by apply elem_of_nil in Hin.
  - assert (r0 ∈ filter (λ r', SQL.same_text (key_of r) (key_of r')) chosen)
      as [Hs%Is_true_true%same_text_spec _]%list_elem_of_filter
      by (rewrite E; left).
    simpl. by rewrite Hs.
Qed.

End BucketLabels.

Lemma energy_where_at (strftime : string → string → option string)
  (scope cpe p : string) (l : list SmartMeter.row) :
  filter (λ r, energy_where strftime scope [Some cpe; Some p] r) l
  = filter (reading_at strftime scope cpe p) l.
Proof.
  apply list_filter_iff. intros r.
  unfold energy_where, reading_at, param. simpl.
  rewrite andb_True, bool_decide_spec.
  destruct (strftime_val strftime scope (SmartMeter.timestamp r)); simpl.
  - rewrite bool_decide_spec. split; intros [? ?]; split; congruence.
  - split; [tauto|]. by intros [_ ?].
Qed.



(** The sample store by day and by hour. *)
Example daily_hourly_sample :
  rows_of (reply (get_energy Builtins.strftime Demo.db "B1" "daily"
                    (Some "1999") (Some "2021-03") None))
  = [ {| Bucket.label := Some "2021-03-01"; Bucket.total_energy := Some 5%Q |};
      {| Bucket.label := Some "2021-03-02"; Bucket.total_energy := Some 3%Q |} ]
  ∧ rows_of (reply (get_energy Builtins.strftime Demo.db "B1" "hourly"
                      None None (Some "2021-04-01")))
    = [ {| Bucket.label := Some "10:00";
           Bucket.total_energy := Some (3 # 2)%Q |} ].
Proof. vm_compute. split; reflexivity. Qed.

(** X8.  A request for a building without readings is no error: for each of
    the three periods the answer is the empty list with status 200. *)
Theorem X8_unknown_building (strftime : string → string → option string)
  (s : store) (cpe period : string) (year month day : option string) :
  period = "monthly" ∨ period = "daily" ∨ period = "hourly" →
  (∀ r, r ∈ smart_meter_data s → SmartMeter.cpe r ≠ cpe) →
  reply (get_energy strftime s cpe period year month day) = Json 200 [].
Proof.
  intros Hperiod Hno.
  assert (∀ scope bucket shown x,
            bucket_query strftime scope bucket shown [Some cpe; x] s = [])
    as Hq.
  { intros. apply bucket_query_nothing. intros r Hr.
    unfold energy_where, param. simpl.
    by rewrite bool_decide_eq_false_2 by (by apply Hno). }
  destruct Hperiod as [-> | [-> | ->]];
    unfold get_energy, energy_switch; simpl; by rewrite Hq.
Qed.

Lemma X8_unknown_building_witness :
  reply (get_energy Builtins.strftime Demo.db "B9" "daily" (Some "2021") None None)
  = Json 200 [].
Proof.
  apply (X8_unknown_building Builtins.strftime Demo.db "B9" "daily").
  - right. left. reflexivity.
  - apply Forall_forall. vm_compute.
    repeat constructor; intros H; discriminate H.
Defined.

(** X9.  A monthly request without a year binds NULL where the year
    belongs; no reading passes a comparison with NULL, so for every store
    and every building the answer is the empty list, with status 200. *)
Theorem X9_monthly_without_year (strftime : string → string → option string)
  (s : store) (cpe : string) (month day : option string) :
  get_energy strftime s cpe "monthly" None month day
  = {| issued := [(MonthlySql, [Some cpe; None])]; reply := Json 200 [] |}.
Proof.
  unfold get_energy, energy_switch. simpl. rewrite bucket_query_nothing; [done|].
  intros r _. unfold energy_where, param. simpl.
  destruct (strftime_val strftime "%Y" (SmartMeter.timestamp r));
    by rewrite andb_false_r.
Qed.

(** * Further properties of the building lists *)

(** The group of a building in the join, for any grouping that is reflexive
    and tells buildings with different cpe apart. *)
Lemma group_of_key (same : Metadata.row → Metadata.row → bool) ms rs m :
  (∀ a, same a a = true) →
  (∀ a b, same a b = true → Metadata.cpe a = Metadata.cpe b) →
  NoDup (Metadata.cpe <$> ms) → m ∈ ms →
  filter (λ j, same m j.1) (left_join ms rs) = joined m rs.
Proof.
  intros Hrefl Hcpe Hpk Hm.
  assert (∀ m', m' ∈ ms → same m m' = true → m' = m) as Hsame.
  { intros m' Hm' E%Hcpe. by apply (pk_inj ms). }
  assert (NoDup ms) as Hnd by by apply NoDup_fmap_1 in Hpk.
  clear Hpk. induction ms as [|m0 ms IH]; [by apply elem_of_nil in Hm|].
  apply NoDup_cons in Hnd as [Hm0 Hnd].
  rewrite left_join_cons, filter_app.
  apply elem_of_cons in Hm as [->|Hm].
  - rewrite filter_all_of.
    + rewrite filter_nothing; [by rewrite app_nil_r|].
      intros j [Hj _]%left_join_elem_of Hs%Is_true_true.
      apply Hm0. rewrite <- (Hsame j.1); [done|by right|done].
    + intros j ->%joined_fst. apply Is_true_true, Hrefl.
  - rewrite filter_nothing.
    + apply IH; [done| |done]. intros m' Hm'. apply Hsame. by right.
    + intros j ->%joined_fst Hs%Is_true_true.
      apply Hm0. rewrite (Hsame m0); [done|by left|done].
Qed.

Lemma same_building_energy_trans a b c :
  same_building_energy a b = true → same_building_energy b c = true →
  same_building_energy a c = true.
Proof.
  unfold same_building_energy. rewrite !andb_true_iff, !bool_decide_eq_true.
  intros [[[[? ?] ?] ?] ?] [[[[? ?] ?] ?] ?].
  repeat split;
    eauto using same_text_trans, same_real_trans, eq_trans.
Qed.

Lemma real_le_total a b : SQL.real_le a b = true ∨ SQL.real_le b a = true.
Proof.
  destruct a as [x|], b as [y|]; simpl; auto.
  rewrite !Qle_bool_iff. destruct (Qlt_le_dec x y); auto using Qlt_le_weak.
Qed.

Lemma real_le_trans a b c :
  SQL.real_le a b = true → SQL.real_le b c = true → SQL.real_le a c = true.
Proof.
  destruct a, b, c; simpl; try done. rewrite !Qle_bool_iff. apply Qle_trans.
Qed.

Section BuildingsEnergy.
Variable strftime : string → string → option string.
Variables (s : store) (y : string).

Local Abbreviation in_year :=
  (λ j : Metadata.row * option SmartMeter.row,
     SQL.text_eq (strftime_val strftime "%Y" (smd_timestamp j)) (Some y)).
Local Abbreviation kept :=
  (filter in_year (left_join (metadata s) (smart_meter_data s))).
Local Abbreviation keys :=
  (SQL.group_keys same_building_energy (fst <$> kept)).

(** What the WHERE clause leaves of the joined rows of one building: its
    readings of the year. *)
Lemma joined_in_year m :
  filter in_year (joined m (smart_meter_data s))
  = (λ r, (m, Some r)) <$> readings_in_year strftime (Metadata.cpe m) y s.
Proof.
  unfold readings_in_year, joined.
  rewrite (list_filter_iff (reading_in_year strftime (Metadata.cpe m) y)
             (λ r, strftime_val strftime "%Y" (SmartMeter.timestamp r) = Some y
                   ∧ Metadata.cpe m = SmartMeter.cpe r))
    by (intros r; unfold reading_in_year; split; intros [? ?]; split; congruence).
  rewrite <- list_filter_filter.
  destruct (filter (λ r, Metadata.cpe m = SmartMeter.cpe r) (smart_meter_data s))
    as [|r0 l]; [done|].
  rewrite filter_fmap_comm. f_equal. apply list_filter_iff. intros r.
  unfold smd_timestamp, SQL.text_eq. simpl.
  destruct (strftime_val strftime "%Y" (SmartMeter.timestamp r)); simpl.
  - rewrite bool_decide_spec. split; congruence.
  - split; [tauto|done].
Qed.

Lemma kept_group m :
  metadata_pk s → m ∈ metadata s →
  filter (λ j, same_building_energy m j.1) kept
  = (λ r, (m, Some r)) <$> readings_in_year strftime (Metadata.cpe m) y s.
Proof.
  intros Hpk Hm. rewrite <- joined_in_year.
  rewrite <- (group_of_key same_building_energy (metadata s)
                (smart_meter_data s) m same_building_energy_refl
                same_building_energy_cpe Hpk Hm).
  rewrite !list_filter_filter. apply list_filter_iff. tauto.
Qed.

Lemma kept_entry m :
  metadata_pk s → m ∈ metadata s →
  buildings_energy_row (m, filter (λ j, same_building_energy m j.1) kept)
  = building_year_row strftime y s m.
Proof.
  intros Hpk Hm. rewrite kept_group by done.
  unfold buildings_energy_row, building_year_row. simpl. do 2 f_equal.
  by rewrite <- list_fmap_compose.
Qed.

Lemma kept_keys :
  metadata_pk s →
  (∀ k, k ∈ keys ↔
        k ∈ metadata s ∧ readings_in_year strftime (Metadata.cpe k) y s ≠ [])
  ∧ NoDup (Metadata.cpe <$> keys).
Proof.
  intros Hpk.
  assert (∀ k, k ∈ fst <$> kept ↔
            k ∈ metadata s
            ∧ readings_in_year strftime (Metadata.cpe k) y s ≠ []) as Hfst.
  { intros k. rewrite list_elem_of_fmap. split.
    - intros (j & -> & [Hy Hj]%list_elem_of_filter).
      apply left_join_elem_of in Hj as [Hm Hj]. split; [done|].
      assert (j ∈ filter in_year (joined j.1 (smart_meter_data s))) as Hin
        by by apply list_elem_of_filter.
      rewrite joined_in_year in Hin. intros E. rewrite E in Hin.
      by apply elem_of_nil in Hin.
    - intros [Hm Hne].
      destruct (readings_in_year strftime (Metadata.cpe k) y s) as [|r l] eqn:E;
        [done|].
      assert ((k, Some r) ∈ filter in_year (joined k (smart_meter_data s)))
        as [Hy Hj]%list_elem_of_filter.
      { rewrite joined_in_year, E. left. }
      exists (k, Some r). split; [done|].
      apply list_elem_of_filter. split; [done|].
      by apply left_join_elem_of. }
  assert (∀ k, k ∈ keys → k ∈ metadata s) as Hsub.
  { intros k Hk%group_keys_elem_of. by apply Hfst in Hk as [? _]. }
  split.
  - intros k. split.
    + intros Hk%group_keys_elem_of. by apply Hfst.
    + intros Hk.
      destruct (group_keys_cover same_building_energy
                  same_building_energy_refl same_building_energy_trans k
                  (fst <$> kept)) as (k' & Hk' & Hs); [by apply Hfst|].
      by rewrite <- (pk_inj (metadata s) k' k Hpk (Hsub _ Hk') (proj1 Hk)
                       (same_building_energy_cpe _ _ Hs)).
  - apply NoDup_fmap_2_strong.
    + intros a b Ha Hb. apply (pk_inj (metadata s)); auto.
    + apply group_keys_NoDup, same_building_energy_refl.
Qed.

(** The rows of the answer: the entries of the buildings with a reading of
    the year, in descending order. *)
Lemma buildings_energy_rows :
  metadata_pk s →
  buildings_energy_query strftime (Some y) s
  = DbRows (SQL.order_by buildings_energy_order
              (building_year_row strftime y s <$> keys)).
Proof.
  intros Hpk. unfold buildings_energy_query, SQL.group_by. do 2 f_equal.
  rewrite <- list_fmap_compose. apply list_fmap_ext.
  intros _ k Hk%list_elem_of_lookup_2. simpl.
  apply kept_entry; [done|]. by apply (proj1 (kept_keys Hpk)) in Hk as [? _].
Qed.

End BuildingsEnergy.

(** X10.  With the primary key of metadata in place, GET
    /api/buildings-energy answers, for the requested year (2021 when none is
    given), one entry for every building that has a reading dated to that
    year and no other entry; the entry carries the building's columns and the
    SUM of active_energy over the building's readings of that year (NULL
    when each of them is NULL); the entries come in descending order of
    that sum, NULL last. *)
Theorem X10_buildings_energy_entries
  (strftime : string → string → option string) (s : store)
  (year : option string) :
  metadata_pk s →
  let y := JS.or_else year "2021" in
  ∃ rows,
    get_buildings_energy strftime s year = Json 200 rows
    ∧ (∀ m, m ∈ metadata s →
         readings_in_year strftime (Metadata.cpe m) y s ≠ [] →
         filter (λ b, BuildingEnergy.cpe b = Metadata.cpe m) rows
         = [building_year_row strftime y s m])
    ∧ (∀ b, b ∈ rows →
         ∃ m, m ∈ metadata s
              ∧ readings_in_year strftime (Metadata.cpe m) y s ≠ []
              ∧ b = building_year_row strftime y s m)
    ∧ StronglySorted
        (λ a b, SQL.real_le (BuildingEnergy.annual_energy b)
                  (BuildingEnergy.annual_energy a) = true) rows.
Proof.
  intros Hpk y. destruct (kept_keys strftime s y Hpk) as [Hkeys Hnd].
  eexists. split.
  { unfold get_buildings_energy. fold y.
    by rewrite (buildings_energy_rows strftime s y Hpk). }
  split; [|split].
  - intros m Hm Hne. apply Permutation_singleton_r.
    rewrite order_by_Permutation, filter_fmap_comm.
    rewrite (filter_key_singleton Metadata.cpe _ m Hnd); [done|].
    by apply Hkeys.
  - intros b (k & -> & Hk)%order_by_elem_of%list_elem_of_fmap.
    apply Hkeys in Hk as [? ?]. by exists k.
  - apply (order_by_StronglySorted buildings_energy_order).
    + intros a b. apply real_le_total.
    + intros a b c. unfold buildings_energy_order. intros ??.
      by eapply real_le_trans.
Qed.

Lemma X10_buildings_energy_entries_witness :
  ∃ rows,
    get_buildings_energy Builtins.strftime Demo.db (Some "2022") = Json 200 rows
    ∧ (λ b, (BuildingEnergy.cpe b, BuildingEnergy.annual_energy b)) <$> rows
      = [("B1", Some 2%Q)].
Proof.
  assert (metadata_pk Demo.db) as Hpk.
  { apply (bool_decide_unpack _). vm_compute. exact I. }
  destruct (X10_buildings_energy_entries Builtins.strftime Demo.db
              (Some "2022") Hpk) as (rows & Hrows & _).
  exists rows. split; [exact Hrows|].
  vm_compute in Hrows. injection Hrows as <-. reflexivity.
Defined.



Lemma total_ext_in {K} (g h : K → Q) (ks : list K) :
  (∀ k, k ∈ ks → g k == h k)%Q →
  (SQL.total (g <$> ks) == SQL.total (h <$> ks))%Q.
Proof.
  induction ks as [|k ks IH]; intros E; [reflexivity|].
  rewrite !fmap_cons, !total_cons. rewrite (E k) by left.
  rewrite IH; [reflexivity|]. intros k' Hk'. apply E. by right.
Qed.

Lemma same_cpe_spec (a b : string) : bool_decide (a = b) = true ↔ a = b.
Proof. apply bool_decide_eq_true. Qed.



(** * The debug endpoint, the schema and the start *)

(** X13.  GET /api/debug/metadata answers with status 200, a sample that is
    the first rows of metadata, at most five of them, their number as count,
    and the six column names; on an empty relation the count is 0 and the
    list of columns is empty too. *)
Theorem X13_debug_metadata (s : store) :
  ∃ info,
    get_debug_metadata s = DebugJson 200 info
    ∧ Debug.sample info `prefix_of` metadata s
    ∧ Debug.count info = Z.min 5 (Z.of_nat (length (metadata s)))
    ∧ Debug.count info = Z.of_nat (length (Debug.sample info))
    ∧ (metadata s = [] → Debug.columns info = [])
    ∧ (metadata s ≠ [] → Debug.columns info = metadata_columns).
Proof.
  exists {| Debug.count := Z.of_nat (length (take 5 (metadata s)));
            Debug.sample := take 5 (metadata s);
            Debug.columns := match take 5 (metadata s) with
                             | [] => []
                             | _ :: _ => metadata_columns
                             end |}.
  split; [reflexivity|]. cbn [Debug.sample Debug.count Debug.columns].
  split; [apply prefix_take|]. split; [rewrite length_take; lia|].
  split; [done|]. split.
  - by intros ->.
  - by destruct (metadata s).
Qed.

(** X14.  initializeDatabase creates what is missing and touches nothing
    that exists: the three relations exist after it, a relation that was
    there keeps its rows and its id counter, a fresh file opens as the empty
    store, and a second run changes nothing.  So startServer always reaches
    the load, and runs it on the store the file already held when there was
    one. *)
Theorem X14_initializeDatabase (parseFloat : string → option Q)
  (src : sources) (d : database) :
  initializeDatabase (initializeDatabase d) = initializeDatabase d
  ∧ (∀ st, open_store d = Some st →
       open_store (initializeDatabase d) = Some st
       ∧ startServer parseFloat src d = Some (loadCSVData parseFloat src st))
  ∧ (metadata_table d = None → smart_meter_data_table d = None →
     energy_breakdown_table d = None →
     open_store (initializeDatabase d) = Some empty_store)
  ∧ is_Some (startServer parseFloat src d)
  ∧ {[ "idx_smart_meter_cpe"; "idx_smart_meter_timestamp";
       "idx_breakdown_timestamp" ]} ∪ indexes d
    ⊆ indexes (initializeDatabase d).
Proof.
  destruct d as [mt st bt ix]. split; [|split; [|split; [|split]]].
  - unfold initializeDatabase, create_index_if_not_exists. simpl. f_equal.
    + by destruct mt.
    + by destruct st.
    + by destruct bt.
    + apply set_eq. intros x. rewrite !elem_of_union. tauto.
  - intros st0. unfold startServer, open_store, initializeDatabase. simpl.
    destruct mt, st, bt; simpl; try done. by intros [= <-].
  - simpl. by intros -> -> ->.
  - unfold startServer, open_store, initializeDatabase. simpl.
    destruct mt, st, bt; simpl; eauto.
  - unfold initializeDatabase, create_index_if_not_exists. simpl.
    intros x. rewrite !elem_of_union. tauto.
Qed.
